(** * PoEPricePredictor: the dump-processing pipeline of [DumpProcessing.py]

    A shallow embedding of [PoEDataImporter]: the file catalog
    ([get_file_df]), the per-league extraction ([extract_df]), grouping
    ([group_df]), currency alignment ([fill_league_currency]) and the join of
    all leagues ([get_data]), followed by the properties of these functions.

    Conventions of the embedding.
    - A Python exception is a value [Raise e] of the type [result]; the
      functions are sequenced with [bind], so the first exception aborts the
      rest, as in Python.
    - [pd.to_datetime] and [pd.read_csv] are library calls: they are
      parameters of the model ([to_datetime] on one string, [read_csv] on a
      path).  A timestamp is a point [Z] of the time line, a time delta is a
      difference of two such points.  The empty string, which pandas reads as
      the not-a-time value, is outside the modelled domain.
    - The [Value] column holds finite numbers, taken as exact rationals [Q];
      a missing cell of a table is [NaN].
    - A data frame with hierarchical columns is kept column-major: the row
      labels, and for every column its key with its cells, one per row. *)

From Stdlib Require Import List String Ascii ZArith QArith Bool Lia.
From Stdlib Require Import Sorted Permutation.
From Stdlib Require OrderedTypeEx.
Import ListNotations.

Local Open Scope string_scope.
Local Open Scope Z_scope.
Local Open Scope list_scope.

(** ** Exceptions *)

Inductive exn : Type :=
| IndexError
| KeyError
| ValueError
| FileNotFoundError.

Inductive result (A : Type) : Type :=
| Ok (a : A)
| Raise (e : exn).

Arguments Ok {A} a.
Arguments Raise {A} e.

Definition bind {A B : Type} (m : result A) (f : A -> result B) : result B :=
  match m with
  | Ok a => f a
  | Raise e => Raise e
  end.

Notation "'do' x <- m ; k" := (bind m (fun x => k))
  (at level 10, x name, m at level 100, k at level 200).

(** A [for] loop whose body may raise, threading the loop-carried value. *)
Fixpoint foldM {A B : Type} (f : A -> B -> result A) (l : list B) (a : A)
  : result A :=
  match l with
  | [] => Ok a
  | b :: l' => do a' <- f a b; foldM f l' a'
  end.

(** An element-wise operation that may raise on an element. *)
Fixpoint mapM {A B : Type} (f : A -> result B) (l : list A) : result (list B) :=
  match l with
  | [] => Ok []
  | a :: l' => do b <- f a; do bs <- mapM f l'; Ok (b :: bs)
  end.

(** ** Strings *)

(** [s.split(sep)] for a one-character separator: never empty. *)
Fixpoint split (sep : ascii) (s : string) : list string :=
  match s with
  | EmptyString => [EmptyString]
  | String c s' =>
      if Ascii.eqb c sep then EmptyString :: split sep s'
      else match split sep s' with
           | h :: t => String c h :: t
           | [] => [String c EmptyString]
           end
  end.

(** [sub in s] *)
Fixpoint contains (sub s : string) : bool :=
  String.prefix sub s ||
  match s with
  | EmptyString => false
  | String _ s' => contains sub s'
  end.

Definition in_list (s : string) (l : list string) : bool :=
  existsb (String.eqb s) l.

(** ** Orders and sorting *)

(** A column key is the pair (currency, league), a tuple of the column
    MultiIndex; tuples are ordered lexicographically. *)
Definition colkey : Type := (string * string)%type.

Definition key_compare (k1 k2 : colkey) : comparison :=
  match String.compare (fst k1) (fst k2) with
  | Eq => String.compare (snd k1) (snd k2)
  | c => c
  end.

Definition key_leb (k1 k2 : colkey) : bool :=
  match key_compare k1 k2 with Gt => false | _ => true end.

Definition key_eqb (k1 k2 : colkey) : bool :=
  String.eqb (fst k1) (fst k2) && String.eqb (snd k1) (snd k2).

(** A group key is (Date, Currency, League), in the order of the [groupby]. *)
Definition groupkey : Type := (Z * colkey)%type.

Definition group_compare (g1 g2 : groupkey) : comparison :=
  match Z.compare (fst g1) (fst g2) with
  | Eq => key_compare (snd g1) (snd g2)
  | c => c
  end.

Definition group_eqb (g1 g2 : groupkey) : bool :=
  Z.eqb (fst g1) (fst g2) && key_eqb (snd g1) (snd g2).

Section Sorting.
Context {A : Type}.

(** Stable insertion into a list sorted by [le]: the new element, which
    comes first in the input, goes before the elements it is tied with. *)
Fixpoint insert_by (le : A -> A -> bool) (x : A) (l : list A) : list A :=
  match l with
  | [] => [x]
  | y :: l' => if le x y then x :: y :: l' else y :: insert_by le x l'
  end.

Definition sort_by (le : A -> A -> bool) (l : list A) : list A :=
  fold_right (insert_by le) [] l.

(** Insertion into a strictly increasing list, dropping a duplicate. *)
Fixpoint insert_uniq (cmp : A -> A -> comparison) (x : A) (l : list A)
  : list A :=
  match l with
  | [] => [x]
  | y :: l' =>
      match cmp x y with
      | Lt => x :: y :: l'
      | Eq => y :: l'
      | Gt => y :: insert_uniq cmp x l'
      end
  end.

(** The sorted distinct values of a list: the levels of a grouping. *)
Definition sort_uniq (cmp : A -> A -> comparison) (l : list A) : list A :=
  fold_right (insert_uniq cmp) [] l.
End Sorting.

(** [Series.unique()]: the distinct values in order of first appearance. *)
Fixpoint unique (l : list string) : list string :=
  match l with
  | [] => []
  | s :: l' => s :: filter (fun s' => negb (String.eqb s' s)) (unique l')
  end.

(** ** A reference parser for ISO calendar dates

    [iso_date "YYYY-MM-DD"] is the day number of the date (days since
    1970-01-01); it is one instance of [to_datetime], used to run the model
    on concrete file names and dumps. *)

Definition digit (c : ascii) : option Z :=
  let n := Z.of_nat (nat_of_ascii c) in
  if (48 <=? n) && (n <=? 57) then Some (n - 48) else None.

Fixpoint digits (l : list ascii) (acc : Z) : option Z :=
  match l with
  | [] => Some acc
  | c :: l' =>
      match digit c with
      | Some d => digits l' (10 * acc + d)
      | None => None
      end
  end.

Definition days_from_civil (y m d : Z) : Z :=
  let y' := if m <=? 2 then y - 1 else y in
  let era := y' / 400 in
  let yoe := y' - era * 400 in
  let mp := if 2 <? m then m - 3 else m + 9 in
  let doy := (153 * mp + 2) / 5 + d - 1 in
  let doe := yoe * 365 + yoe / 4 - yoe / 100 + doy in
  era * 146097 + doe - 719468.

Definition iso_date (s : string) : option Z :=
  match list_ascii_of_string s with
  | [y1; y2; y3; y4; s1; m1; m2; s2; d1; d2] =>
      if Ascii.eqb s1 "-" && Ascii.eqb s2 "-" then
        match digits [y1; y2; y3; y4] 0, digits [m1; m2] 0, digits [d1; d2] 0 with
        | Some y, Some m, Some d =>
            if (1 <=? m) && (m <=? 12) && (1 <=? d) && (d <=? 31)
            then Some (days_from_civil y m d) else None
        | _, _, _ => None
        end
      else None
  | _ => None
  end.

(** ** Data model *)

(** A row of the catalog data frame: columns [League], [Date], [File]. *)
Module Catalog.
Record row : Type := mk { League : string; Date : Z; File : string }.
End Catalog.

(** A row of a dump as [read_csv] returns it: [Date] is still text. *)
Module Raw.
Record row : Type :=
  mk { League : string; Date : string; Get : string; Pay : string; Value : Q }.
End Raw.

(** A row of an extracted league: [Get] renamed to [Currency], [Date]
    converted to a timestamp and then to the time elapsed since the anchor. *)
Module Extracted.
Record row : Type :=
  mk { League : string; Date : Z; Currency : string; Value : Q }.
End Extracted.

(** An extracted data frame keeps the row labels given by [read_csv]
    (0, 1, 2, ... in file order), which the filter does not renumber. *)
Definition labelled : Type := list (nat * Extracted.row).

Inductive cell : Type :=
| NaN
| Val (q : Q).

(** A grouped table: the row labels (elapsed times) and the columns. *)
Record DataFrame : Type :=
  mkDataFrame { index : list Z; data : list (colkey * list cell) }.

Definition columns (df : DataFrame) : list colkey := map fst (data df).

(** [df.at[t, k]]: [None] when the row label or the column key is absent. *)
Fixpoint lookup {K V : Type} (eqb : K -> K -> bool) (k : K) (l : list (K * V))
  : option V :=
  match l with
  | [] => None
  | (k', v) :: l' => if eqb k' k then Some v else lookup eqb k l'
  end.

Definition at_ (df : DataFrame) (t : Z) (k : colkey) : option cell :=
  match lookup key_eqb k (data df) with
  | Some cells => lookup Z.eqb t (combine (index df) cells)
  | None => None
  end.

(** ** The catalog: [get_currency_file_paths] and [get_file_df] *)

(** The files found by [glob] are an input; the method keeps those whose
    path contains "currency". *)
Definition get_currency_file_paths (csv_files : list string) : list string :=
  filter (contains "currency") csv_files.

(** A Python [dict] with string keys: assigning to a key that is present
    replaces its value in place, a new key goes last. *)
Fixpoint dict_set {V : Type} (k : string) (v : V) (d : list (string * V))
  : list (string * V) :=
  match d with
  | [] => [(k, v)]
  | (k', v') :: d' =>
      if String.eqb k' k then (k', v) :: d' else (k', v') :: dict_set k v d'
  end.

(** The dict comprehension of [get_file_df]: the key is [file.split(".")[0]],
    the value holds [file.split(".")[1]] and the path; indexing segment 1 of
    a name without a "." raises [IndexError]. *)
Fixpoint file_dict (file_list : list string) (acc : list (string * (string * string)))
  : result (list (string * (string * string))) :=
  match file_list with
  | [] => Ok acc
  | file :: rest =>
      match split "." file with
      | league :: date :: _ => file_dict rest (dict_set league (date, file) acc)
      | _ => Raise IndexError
      end
  end.

(** [sort_values(by=["Date"], ascending=False)].  Pandas leaves the order
    of records with equal dates to the sorting algorithm; the model keeps
    them in input order, and no property below depends on that choice. *)
Definition date_geb (r1 r2 : Catalog.row) : bool :=
  Catalog.Date r2 <=? Catalog.Date r1.

Definition sort_values_desc (df : list Catalog.row) : list Catalog.row :=
  sort_by date_geb df.

(** [max()] of a timestamp column; not-a-time ([None]) on an empty column. *)
Definition max_date (df : list Catalog.row) : option Z :=
  match df with
  | [] => None
  | r :: df' => Some (fold_left Z.max (map Catalog.Date df') (Catalog.Date r))
  end.

(** ** Tables: the pieces of [group_df], [fill_league_currency], [join] *)

Definition key3 (r : Extracted.row) : groupkey :=
  (Extracted.Date r, (Extracted.Currency r, Extracted.League r)).

(** [groupby(["Date", "Currency", "League"]).sum()]: one entry per distinct
    key, keys sorted, the values of a group added up in row order.  [sum]
    adds the values as exact numbers: it is the sum of the column where no
    rounding and no overflow occurs.  The sum in the arithmetic of the column
    is the subject of [group_df_with] below. *)
Definition sum (l : list Q) : Q := fold_left Qplus l 0%Q.

Definition groupby_sum (rows : list Extracted.row) : list (groupkey * Q) :=
  map (fun g =>
         (g, sum (map Extracted.Value
                      (filter (fun r => group_eqb (key3 r) g) rows))))
      (sort_uniq group_compare (map key3 rows)).

(** [.unstack(level=0).T]: the dates become the row labels, the remaining
    (Currency, League) levels the columns, both sorted; a combination with no
    group is a missing cell. *)
Definition unstack_T (groups : list (groupkey * Q)) : DataFrame :=
  let idx := sort_uniq Z.compare (map (fun g => fst (fst g)) groups) in
  let keys := sort_uniq key_compare (map (fun g => snd (fst g)) groups) in
  {| index := idx;
     data :=
       map (fun k =>
              (k, map (fun t =>
                         match lookup group_eqb (t, k) groups with
                         | Some v => Val v
                         | None => NaN
                         end) idx))
           keys |}.

(** [df[k] = v]: overwrite the column [k] when present, append it otherwise. *)
Definition set_column (df : DataFrame) (k : colkey) (v : cell) : DataFrame :=
  let col := repeat v (List.length (index df)) in
  {| index := index df;
     data :=
       if existsb (key_eqb k) (columns df)
       then map (fun c => if key_eqb (fst c) k then (fst c, col) else c) (data df)
       else data df ++ [(k, col)] |}.

(** [df.sort_index(axis=1)] *)
Definition sort_index_axis1 (df : DataFrame) : DataFrame :=
  {| index := index df;
     data := sort_by (fun c1 c2 => key_leb (fst c1) (fst c2)) (data df) |}.

(** The cells of a column of the right table, re-indexed by the row labels of
    the left one: a label the right table lacks gives a missing cell. *)
Definition reindex (ridx : list Z) (cells : list cell) (lidx : list Z)
  : list cell :=
  map (fun t =>
         match lookup Z.eqb t (combine ridx cells) with
         | Some c => c
         | None => NaN
         end) lidx.

(** [left.join(right)]: [how="left"] on the row labels, no suffixes, so that
    a column key present on both sides raises [ValueError]. *)
Definition join (left right : DataFrame) : result DataFrame :=
  if existsb (fun k => existsb (key_eqb k) (columns right)) (columns left)
  then Raise ValueError
  else Ok {| index := index left;
             data := data left ++
                     map (fun c => (fst c, reindex (index right) (snd c) (index left)))
                         (data right) |}.

(** [df.reset_index(drop=True)] *)
Definition reset_index (df : DataFrame) : DataFrame :=
  {| index := map Z.of_nat (seq 0 (List.length (index df))); data := data df |}.

(** ** The methods of [PoEDataImporter] *)

Definition base_currency : string := "Chaos Orb".

Record PoEDataImporter : Type :=
  mkImporter {
      currency_file_path_list : list string;
      df_files : list Catalog.row;
      latest_currency : list string;
      league_names : list string;
      df : DataFrame }.

Section Methods.
(** [pd.to_datetime] on one string: [None] when it raises. *)
Variable to_datetime : string -> option Z.
(** [pd.read_csv(path, sep=";")]: the rows of the dump, [None] when the
    file cannot be read into rows with the five columns.  The model raises
    [FileNotFoundError] for every such failure; which exception pandas raises
    for it (a missing file, an empty file, a missing column) is not modelled,
    and no property below depends on it. *)
Variable read_csv : string -> option (list Raw.row).

Definition get_file_df (file_list : list string) : result (list Catalog.row) :=
  do file_dict <- file_dict file_list [];
  match file_dict with
  | [] => Raise KeyError
  | _ :: _ =>
      do df <- mapM (fun e =>
                       match to_datetime (fst (snd e)) with
                       | Some d => Ok (Catalog.mk (fst e) d (snd (snd e)))
                       | None => Raise ValueError
                       end) file_dict;
      Ok (sort_values_desc df)
  end.

Definition extract_df (file_path : string) : result labelled :=
  match read_csv file_path with
  | None => Raise FileNotFoundError
  | Some rows =>
      let df := combine (seq 0 (List.length rows)) rows in
      let df := filter (fun r => String.eqb (Raw.Pay (snd r)) base_currency) df in
      do df <- mapM (fun r =>
                       match to_datetime (Raw.Date (snd r)) with
                       | Some d =>
                           Ok (fst r,
                               Extracted.mk (Raw.League (snd r)) d
                                            (Raw.Get (snd r)) (Raw.Value (snd r)))
                       | None => Raise ValueError
                       end) df;
      match lookup Nat.eqb 0%nat df with
      | None => Raise KeyError
      | Some r0 =>
          Ok (map (fun r =>
                     (fst r,
                      Extracted.mk (Extracted.League (snd r))
                                   (Extracted.Date (snd r) - Extracted.Date r0)
                                   (Extracted.Currency (snd r))
                                   (Extracted.Value (snd r)))) df)
      end
  end.

Definition group_df (df : labelled) : DataFrame :=
  unstack_T (groupby_sum (map snd df)).

Definition get_latest_league_data (df : list Catalog.row) : result labelled :=
  let max_date := max_date df in
  let df := filter (fun r =>
                      match max_date with
                      | Some m => Catalog.Date r =? m
                      | None => false
                      end) df in
  match map Catalog.File df with
  | [latest_league_file_dir] => extract_df latest_league_file_dir
  | _ => Raise ValueError
  end.

Definition get_currency_list (df : labelled) : list string :=
  unique (map (fun r => Extracted.Currency (snd r)) df).

Definition get_latest_currency_list (df : list Catalog.row)
  : result (list string) :=
  do latest <- get_latest_league_data df;
  Ok (sort_by String.leb (get_currency_list latest)).

Definition fill_league_currency (df : DataFrame) (latest_currency_list : list string)
  : result DataFrame :=
  let league_currency_list := map fst (columns df) in
  do df <- foldM (fun df lastest_currency =>
                    if in_list lastest_currency league_currency_list
                    then Ok df
                    else match columns df with
                         | [] => Raise IndexError
                         | k0 :: _ => Ok (set_column df (lastest_currency, snd k0) NaN)
                         end)
                 latest_currency_list df;
  Ok (sort_index_axis1 df).

(** One league, extracted, grouped and aligned. *)
Definition league_table (file_path : string) (latest_currency : list string)
  : result DataFrame :=
  do league <- extract_df file_path;
  fill_league_currency (group_df league) latest_currency.

(** The value of [df] in [get_data] when the loop ends, before the row
    labels are dropped. *)
Definition get_data_joined (df : list Catalog.row) (latest_currency : list string)
  : result DataFrame :=
  match map Catalog.File df with
  | [] => Raise IndexError
  | first :: rest =>
      do df <- league_table first latest_currency;
      foldM (fun df file_path =>
               do league_grp <- league_table file_path latest_currency;
               join df league_grp) rest df
  end.

Definition get_data (df : list Catalog.row) (latest_currency : list string)
  : result DataFrame :=
  do df <- get_data_joined df latest_currency;
  Ok (reset_index df).

(** [__init__], from the paths found by [glob]. *)
Definition init (csv_files : list string) : result PoEDataImporter :=
  let currency_file_path_list := get_currency_file_paths csv_files in
  do df_files <- get_file_df currency_file_path_list;
  do latest_currency <- get_latest_currency_list df_files;
  let league_names := map Catalog.League df_files in
  do df <- get_data df_files latest_currency;
  Ok (mkImporter currency_file_path_list df_files latest_currency league_names df).
End Methods.

(** ** Grouping in the arithmetic of the column

    The [Value] column of a dump is a float64 column, or an int64 column
    when all its values are integers, and [.sum()] adds in the arithmetic of
    the column: float64 addition rounds, int64 addition wraps around.
    [group_df_with agg_sum] is [group_df] with [agg_sum] for the sum that
    pandas computes over the values of one group, in row order; [group_df]
    itself is [group_df_with sum]. *)

Definition groupby_sum_with (agg_sum : list Q -> Q) (rows : list Extracted.row)
  : list (groupkey * Q) :=
  map (fun g =>
         (g, agg_sum (map Extracted.Value
                          (filter (fun r => group_eqb (key3 r) g) rows))))
      (sort_uniq group_compare (map key3 rows)).

Definition group_df_with (agg_sum : list Q -> Q) (df : labelled) : DataFrame :=
  unstack_T (groupby_sum_with agg_sum (map snd df)).





(** ** The renderer: [plot_currency]

    The plotly calls are kept as data: the figure holds the arguments the
    method hands to [go.Scatter], to the update menu and to the layout, and
    the model returns the figure that the method shows. *)

Module Plot.
Record Scatter : Type :=
  mkScatter { x : list Z; y : list cell; name : string }.

Record Button : Type :=
  mkButton { method : string; label : string; args_y : list (list cell) }.

Record Figure : Type :=
  mkFigure { traces : list Scatter; buttons : list Button;
             xaxis_title : string; yaxis_title : string }.
End Plot.

(** [df.fillna(v)] *)
Definition fillna (v : Q) (df : DataFrame) : DataFrame :=
  {| index := index df;
     data := map (fun c => (fst c,
                            map (fun a => match a with NaN => Val v | Val q => Val q end)
                                (snd c)))
                 (data df) |}.

(** [df[currency, league]], and [df[currency][league]] as well: the cells of
    the column of that key, [KeyError] when the table has no such column. *)
Definition getitem (df : DataFrame) (k : colkey) : result (list cell) :=
  match lookup key_eqb k (data df) with
  | Some cells => Ok cells
  | None => Raise KeyError
  end.

(** [not l] for an optional list argument: true on [None] and on []. *)
Definition or_default (arg : option (list string)) (default : list string)
  : list string :=
  match arg with
  | None | Some [] => default
  | Some l => l
  end.

(** [plot_currency]: [not df] raises on a data frame (its truth value is
    ambiguous), so that only the default [df=None] goes through. *)
Definition plot_currency (self : PoEDataImporter)
  : option DataFrame -> option (list string) -> option (list string) ->
    result Plot.Figure :=
  let self_df := df self in
  let self_league_names := league_names self in
  let self_latest_currency := latest_currency self in
  fun df league_names currency_list =>
  do df <- match df with
           | None => Ok self_df
           | Some _ => Raise ValueError
           end;
  let league_names := or_default league_names self_league_names in
  let currency_list := or_default currency_list self_latest_currency in
  let df := fillna 0%Q df in
  do traces <- mapM (fun league_name =>
                       match columns df with
                       | [] => Raise IndexError
                       | k0 :: _ =>
                           do y <- getitem df (fst k0, league_name);
                           Ok (Plot.mkScatter (index df) y league_name)
                       end) league_names;
  do buttons <- mapM (fun currency =>
                        do ys <- mapM (fun league => getitem df (currency, league))
                                      league_names;
                        Ok (Plot.mkButton "restyle" currency ys)) currency_list;
  Ok (Plot.mkFigure traces buttons "Date" "Chaos Orb").

(** ** Notions used to state the properties *)

(** The league name a file is catalogued under: its first "."-segment. *)
Definition league_of (file : string) : string := hd EmptyString (split "." file).

(** The smallest [Date] (elapsed time) of an extracted data frame. *)
Definition min_elapsed (df : labelled) : option Z :=
  match map (fun r => Extracted.Date (snd r)) df with
  | [] => None
  | t :: ts => Some (fold_left Z.min ts t)
  end.

(** The cell of [df] at row [t] and column [k], a missing cell when the
    table has the column but no row [t]. *)
Definition cell_or_nan (df : DataFrame) (t : Z) (k : colkey) : cell :=
  match at_ df t k with
  | Some c => c
  | None => NaN
  end.

(** A table is rectangular when every column has one cell per row. *)
Definition rectangular (df : DataFrame) : Prop :=
  Forall (fun c => List.length (snd c) = List.length (index df)) (data df).

(** [s] has [sub] as a substring. *)
Definition substring_of (sub s : string) : Prop :=
  exists pre post, s = (pre ++ sub ++ post)%string.

(** The strict orders of the row labels and of the column keys. *)
Definition key_lt (k1 k2 : colkey) : Prop := key_compare k1 k2 = Lt.

(** A file name with a league segment and a date segment. *)
Definition well_formed_name (file : string) : Prop :=
  (2 <= List.length (split "." file))%nat.

(** The text that [get_file_df] reads as the date of a file. *)
Definition date_segment (file : string) : string :=
  nth 1 (split "." file) EmptyString.

(** [file] is the last file of its league in the list. *)
Definition last_of_league (file_list : list string) (file : string) : Prop :=
  exists l1 l2,
    file_list = l1 ++ file :: l2 /\
    forall g, In g l2 -> league_of g <> league_of file.

(** The cells of the column [k] of [df] with zero for the missing ones;
    no cells when the table has no such column. *)
Definition filled_column (df : DataFrame) (k : colkey) : list cell :=
  match lookup key_eqb k (data df) with
  | Some cells => map (fun a => match a with NaN => Val 0%Q | Val q => Val q end) cells
  | None => []
  end.

(** The figure of a table: one trace per league over the currency [first],
    one button per currency with one series per league. *)
Definition figure_of (df : DataFrame) (first : string)
           (league_names currency_list : list string) : Plot.Figure :=
  Plot.mkFigure
    (map (fun l => Plot.mkScatter (index df) (filled_column df (first, l)) l)
         league_names)
    (map (fun c => Plot.mkButton "restyle" c
                                 (map (fun l => filled_column df (c, l)) league_names))
         currency_list)
    "Date" "Chaos Orb".

(** Two tables without a column key in common. *)
Definition disjoint_columns (T1 T2 : DataFrame) : Prop :=
  forall k, In k (columns T1) -> ~ In k (columns T2).

(** ** Sample dumps

    Two leagues as in the end-to-end scenario of the specification, and
    small dumps for the corner cases; [sample_read_csv] is the file system
    they live in. *)

Definition chaos (league date get : string) (value : Q) : Raw.row :=
  Raw.mk league date get base_currency value.

Definition file_A : string := "A.2020-01-01.currency.csv".
Definition file_B : string := "B.2020-06-01.currency.csv".
Definition file_A2 : string := "A.2020-02-01.currency.csv".
Definition file_unsorted : string := "U.2020-03-01.currency.csv".
Definition file_nobase : string := "N.2020-04-01.currency.csv".
Definition file_dup : string := "D.2020-05-01.currency.csv".

Definition dump_A : list Raw.row :=
  [chaos "A" "2020-01-01" "Orb1" 10%Q; chaos "A" "2020-01-02" "Orb1" 12%Q].

Definition dump_B : list Raw.row :=
  [chaos "B" "2020-06-01" "Orb1" 5%Q; chaos "B" "2020-06-01" "Orb2" 1%Q;
   chaos "B" "2020-06-03" "Orb1" 7%Q; chaos "B" "2020-06-03" "Orb2" 3%Q].

(** The second row is dated one day before the first. *)
Definition dump_unsorted : list Raw.row :=
  [chaos "U" "2020-03-02" "Orb1" 4%Q; chaos "U" "2020-03-01" "Orb1" 3%Q].

(** Rows, none of them priced in the base currency. *)
Definition dump_nobase : list Raw.row :=
  [Raw.mk "N" "2020-04-01" "Chaos Orb" "Exalted Orb" (1 # 100)%Q;
   Raw.mk "N" "2020-04-02" "Chaos Orb" "Exalted Orb" (1 # 90)%Q].

(** The first two rows have the same date and currency. *)
Definition dump_dup : list Raw.row :=
  [chaos "D" "2020-05-01" "Orb1" (3 # 2)%Q; chaos "D" "2020-05-01" "Orb1" (5 # 2)%Q;
   chaos "D" "2020-05-02" "Orb1" 2%Q].

Definition path_table : list (string * list Raw.row) :=
  [(file_A, dump_A); (file_B, dump_B); (file_unsorted, dump_unsorted);
   (file_nobase, dump_nobase); (file_dup, dump_dup)].

Definition sample_read_csv (path : string) : option (list Raw.row) :=
  lookup String.eqb path path_table.

Definition sample_catalog : list Catalog.row :=
  [Catalog.mk "B" 18414 file_B; Catalog.mk "A" 18262 file_A].

(** * Properties *)

(** ** The exception monad and the generic list functions *)

Lemma bind_Ok {A B : Type} (m : result A) (f : A -> result B) (b : B) :
  bind m f = Ok b -> exists a, m = Ok a /\ f a = Ok b.
Proof. destruct m as [a|e]; simpl; [eauto | discriminate]. Qed.

Lemma mapM_Ok {A B : Type} (f : A -> result B) (l : list A) (l' : list B) :
  mapM f l = Ok l' -> Forall2 (fun a b => f a = Ok b) l l'.
Proof.
  revert l'; induction l as [|a l IH]; simpl; intros l' H.
  - injection H as <-. constructor.
  - apply bind_Ok in H as (b & Hb & H).
    apply bind_Ok in H as (bs & Hbs & H).
    injection H as <-. constructor; auto.
Qed.

(** When every element either converts or raises [e], so does the list. *)
Lemma mapM_cases {A B : Type} (f : A -> result B) (e : exn) (l : list A) :
  (forall a, In a l -> (exists b, f a = Ok b) \/ f a = Raise e) ->
  (exists l', mapM f l = Ok l') \/ mapM f l = Raise e.
Proof.
  induction l as [|a l IH]; simpl; intros H.
  - left; eauto.
  - destruct (H a (or_introl eq_refl)) as [(b & ->) | ->]; simpl; auto.
    destruct IH as [(l' & ->) | ->]; simpl; eauto.
Qed.

Lemma foldM_raises {A B : Type} (f : A -> B -> result A) (l : list B) (b : B) :
  In b l -> (forall a, exists e, f a b = Raise e) ->
  forall a, exists e, foldM f l a = Raise e.
Proof.
  intros Hin Hb. induction l as [|x l IH]; simpl; intros a; [contradiction|].
  destruct Hin as [-> | Hin].
  - destruct (Hb a) as (e & ->). simpl; eauto.
  - destruct (f a x) as [a'|e]; simpl; eauto.
Qed.

Lemma key_eqb_eq (k1 k2 : colkey) : key_eqb k1 k2 = true <-> k1 = k2.
Proof.
  destruct k1 as [c1 l1], k2 as [c2 l2]; unfold key_eqb; simpl.
  rewrite andb_true_iff, !String.eqb_eq. split.
  - intros [-> ->]; reflexivity.
  - intros [= -> ->]; auto.
Qed.

Lemma key_eqb_refl (k : colkey) : key_eqb k k = true.
Proof. apply key_eqb_eq; reflexivity. Qed.

Lemma group_eqb_eq (g1 g2 : groupkey) : group_eqb g1 g2 = true <-> g1 = g2.
Proof.
  destruct g1 as [t1 k1], g2 as [t2 k2]; unfold group_eqb; simpl.
  rewrite andb_true_iff, Z.eqb_eq, key_eqb_eq. split.
  - intros [-> ->]; reflexivity.
  - intros [= -> ->]; auto.
Qed.

Lemma key_compare_eq (k1 k2 : colkey) : key_compare k1 k2 = Eq -> k1 = k2.
Proof.
  destruct k1 as [c1 l1], k2 as [c2 l2]; unfold key_compare; simpl.
  destruct (String.compare c1 c2) eqn:Hc; try discriminate.
  intros Hl. apply String.compare_eq_iff in Hc, Hl. congruence.
Qed.

Lemma group_compare_eq (g1 g2 : groupkey) : group_compare g1 g2 = Eq -> g1 = g2.
Proof.
  destruct g1 as [t1 k1], g2 as [t2 k2]; unfold group_compare; simpl.
  destruct (Z.compare t1 t2) eqn:Ht; try discriminate.
  intros Hk. apply Z.compare_eq in Ht. apply key_compare_eq in Hk. congruence.
Qed.

Lemma key_compare_antisym (k1 k2 : colkey) :
  key_compare k2 k1 = CompOpp (key_compare k1 k2).
Proof.
  unfold key_compare.
  rewrite (String.compare_antisym (fst k1) (fst k2)).
  rewrite (String.compare_antisym (snd k1) (snd k2)).
  destruct (String.compare (fst k2) (fst k1)); simpl;
    destruct (String.compare (snd k2) (snd k1)); reflexivity.
Qed.

Lemma key_leb_total (k1 k2 : colkey) : key_leb k1 k2 = false -> key_leb k2 k1 = true.
Proof.
  unfold key_leb. rewrite (key_compare_antisym k1 k2).
  destruct (key_compare k1 k2); simpl; congruence.
Qed.

Lemma key_leb_currency (k1 k2 : colkey) :
  key_leb k1 k2 = true -> String.leb (fst k1) (fst k2) = true.
Proof.
  unfold key_leb, key_compare, String.leb.
  destruct (String.compare (fst k1) (fst k2)); auto.
Qed.

(** ** Sorting *)

Section SortingFacts.
Context {A : Type}.
Variable le : A -> A -> bool.

Lemma insert_by_perm (x : A) (l : list A) : Permutation (x :: l) (insert_by le x l).
Proof.
  induction l as [|y l IH]; simpl; auto.
  destruct (le x y); auto.
  apply perm_trans with (y :: x :: l); [apply perm_swap | auto].
Qed.

Lemma sort_by_perm (l : list A) : Permutation l (sort_by le l).
Proof.
  induction l as [|x l IH]; simpl; auto.
  apply perm_trans with (x :: sort_by le l); auto using insert_by_perm.
Qed.

Hypothesis le_total : forall x y, le x y = false -> le y x = true.

Lemma insert_by_sorted (x : A) (l : list A) :
  Sorted (fun a b => le a b = true) l ->
  Sorted (fun a b => le a b = true) (insert_by le x l).
Proof.
  induction l as [|y l IH]; simpl; intros Hs.
  - repeat constructor.
  - destruct (le x y) eqn:Hxy.
    + constructor; auto.
    + apply Sorted_inv in Hs as [Hs Hhd].
      constructor; auto.
      destruct l as [|z l]; simpl in *.
      * constructor; auto.
      * destruct (le x z); constructor; auto.
        now inversion Hhd.
Qed.

Lemma sort_by_sorted (l : list A) : Sorted (fun a b => le a b = true) (sort_by le l).
Proof.
  induction l as [|x l IH]; simpl; [constructor | now apply insert_by_sorted].
Qed.
End SortingFacts.

Section SortUniqFacts.
Context {A : Type}.
Variable cmp : A -> A -> comparison.
Hypothesis cmp_eq : forall x y, cmp x y = Eq -> x = y.

Lemma insert_uniq_In (x y : A) (l : list A) :
  In y (insert_uniq cmp x l) <-> y = x \/ In y l.
Proof.
  induction l as [|z l IH]; simpl.
  - intuition.
  - destruct (cmp x z) eqn:Hc; simpl.
    + apply cmp_eq in Hc; subst z. intuition.
    + intuition.
    + rewrite IH. intuition.
Qed.

Lemma sort_uniq_In (y : A) (l : list A) : In y (sort_uniq cmp l) <-> In y l.
Proof.
  induction l as [|x l IH]; simpl; [tauto|].
  unfold sort_uniq in IH. rewrite insert_uniq_In, IH. intuition.
Qed.
End SortUniqFacts.

(** ** Lookup in association lists *)

Lemma lookup_map_key {K V : Type} (eqb : K -> K -> bool) (f : K -> V)
      (k : K) (l : list K) :
  (forall a b, eqb a b = true <-> a = b) ->
  In k l -> lookup eqb k (map (fun a => (a, f a)) l) = Some (f k).
Proof.
  intros Heq. induction l as [|a l IH]; simpl; [contradiction|].
  intros Hin. destruct (eqb a k) eqn:Hak.
  - apply Heq in Hak; subst; reflexivity.
  - destruct Hin as [-> | Hin]; auto.
    assert (eqb k k = true) by (apply Heq; reflexivity). congruence.
Qed.

Lemma lookup_combine_map (f : Z -> cell) (t : Z) (l : list Z) :
  In t l -> lookup Z.eqb t (combine l (map f l)) = Some (f t).
Proof.
  induction l as [|a l IH]; simpl; [contradiction|].
  intros Hin. destruct (Z.eqb_spec a t) as [-> | Hne]; auto.
  destruct Hin; [contradiction | auto].
Qed.

Lemma lookup_app {K V : Type} (eqb : K -> K -> bool) (k : K) (l1 l2 : list (K * V)) :
  lookup eqb k (l1 ++ l2) =
  match lookup eqb k l1 with
  | Some v => Some v
  | None => lookup eqb k l2
  end.
Proof.
  induction l1 as [|[k' v] l1 IH]; simpl; auto.
  destruct (eqb k' k); auto.
Qed.

Lemma lookup_None_notin {V : Type} (k : colkey) (l : list (colkey * V)) :
  existsb (key_eqb k) (map fst l) = false -> lookup key_eqb k l = None.
Proof.
  induction l as [|[k' v] l IH]; simpl; auto.
  rewrite orb_false_iff. intros [Hk Hl].
  destruct (key_eqb k' k) eqn:E; auto.
  apply key_eqb_eq in E; subst. rewrite key_eqb_refl in Hk; discriminate.
Qed.

(** ** The catalog *)

Lemma split_nonempty (sep : ascii) (s : string) : split sep s <> [].
Proof.
  destruct s as [|c s]; simpl; [discriminate|].
  destruct (Ascii.eqb c sep); [discriminate|].
  destruct (split sep s); discriminate.
Qed.


(** The name "league_only.csv" has two segments: its second segment is read
    as the date, and the build stops when that text is not a date. *)
Example league_only_csv_raises :
  split "." "league_only.csv" = ["league_only"; "csv"] /\
  get_file_df iso_date ["league_only.csv"] = Raise ValueError.
Proof. split; reflexivity. Qed.

Lemma lookup_dict_set {V : Type} (k k' : string) (v : V) (d : list (string * V)) :
  lookup String.eqb k' (dict_set k v d) =
  if String.eqb k k' then Some v else lookup String.eqb k' d.
Proof.
  induction d as [|[k0 v0] d IH]; simpl.
  - destruct (String.eqb k k'); reflexivity.
  - destruct (String.eqb_spec k0 k) as [-> | Hne]; simpl.
    + destruct (String.eqb k k'); reflexivity.
    + rewrite IH. destruct (String.eqb_spec k0 k') as [-> | Hne'].
      * destruct (String.eqb_spec k k'); [congruence | reflexivity].
      * reflexivity.
Qed.

Lemma dict_set_keys_In {V : Type} (k k' : string) (v : V) (d : list (string * V)) :
  In k' (map fst (dict_set k v d)) <-> k' = k \/ In k' (map fst d).
Proof.
  induction d as [|[k0 v0] d IH]; simpl.
  - intuition.
  - destruct (String.eqb_spec k0 k) as [-> | Hne]; simpl.
    + intuition.
    + rewrite IH. intuition.
Qed.

Lemma dict_set_NoDup {V : Type} (k : string) (v : V) (d : list (string * V)) :
  NoDup (map fst d) -> NoDup (map fst (dict_set k v d)).
Proof.
  induction d as [|[k0 v0] d IH]; simpl; intros Hnd.
  - constructor; [intros [] | constructor].
  - inversion Hnd as [|? ? Hnotin Hnd']; subst.
    destruct (String.eqb_spec k0 k) as [-> | Hne]; simpl.
    + constructor; auto.
    + constructor; auto. rewrite dict_set_keys_In. intuition.
Qed.

Lemma lookup_NoDup_In {V : Type} (k : string) (v : V) (d : list (string * V)) :
  NoDup (map fst d) -> In (k, v) d -> lookup String.eqb k d = Some v.
Proof.
  induction d as [|[k0 v0] d IH]; simpl; intros Hnd Hin; [contradiction|].
  inversion Hnd as [|? ? Hnotin Hnd']; subst.
  destruct Hin as [[= -> ->] | Hin].
  - now rewrite String.eqb_refl.
  - destruct (String.eqb_spec k0 k) as [-> | Hne]; auto.
    exfalso; apply Hnotin. apply (in_map fst) in Hin; exact Hin.
Qed.

Lemma file_dict_keys (file_list : list string) :
  forall acc d, file_dict file_list acc = Ok d ->
    (NoDup (map fst acc) -> NoDup (map fst d)) /\
    (forall k, In k (map fst acc) -> In k (map fst d)) /\
    (forall f, In f file_list -> In (league_of f) (map fst d)).
Proof.
  induction file_list as [|file rest IH]; simpl; intros acc d H.
  - injection H as <-. repeat split; auto. intros f [].
  - destruct (split "." file) as [|league [|date segs]] eqn:Hs; try discriminate.
    apply IH in H as (Hnd & Hacc & Hfiles).
    split; [|split].
    + intros Hn. apply Hnd, dict_set_NoDup, Hn.
    + intros k Hk. apply Hacc, dict_set_keys_In. auto.
    + intros f [<- | Hf]; auto.
      apply Hacc, dict_set_keys_In. left.
      unfold league_of. rewrite Hs. reflexivity.
Qed.

(** The entry of a league is the one of the last file listed for it. *)
Lemma file_dict_lookup (file_list : list string) :
  forall acc d k date file,
    file_dict file_list acc = Ok d ->
    lookup String.eqb k d = Some (date, file) ->
    (exists l1 l2 segs,
        file_list = l1 ++ file :: l2 /\
        split "." file = k :: date :: segs /\
        forall f, In f l2 -> league_of f <> k) \/
    (lookup String.eqb k acc = Some (date, file) /\
     forall f, In f file_list -> league_of f <> k).
Proof.
  induction file_list as [|file0 rest IH]; simpl; intros acc d k date file H Hl.
  - injection H as <-. right; split; auto.
  - destruct (split "." file0) as [|league [|date0 segs]] eqn:Hs; try discriminate.
    destruct (IH _ _ _ _ _ H Hl) as [(l1 & l2 & sg & -> & Hsp & Hl2) | (Hacc & Hrest)].
    + left. exists (file0 :: l1), l2, sg. auto.
    + rewrite lookup_dict_set in Hacc.
      destruct (String.eqb_spec league k) as [-> | Hne].
      * injection Hacc as <- <-. left. exists [], rest, segs. auto.
      * right. split; auto.
        intros f [<- | Hf]; auto.
        unfold league_of; rewrite Hs; exact Hne.
Qed.

Lemma sort_values_desc_perm (df : list Catalog.row) :
  Permutation df (sort_values_desc df).
Proof. apply sort_by_perm. Qed.

Lemma sort_values_desc_sorted (df : list Catalog.row) :
  Sorted (fun r1 r2 => Catalog.Date r2 <= Catalog.Date r1) (sort_values_desc df).
Proof.
  assert (H : Sorted (fun a b => date_geb a b = true) (sort_values_desc df)).
  { apply sort_by_sorted. unfold date_geb. intros x y Hxy.
    apply Z.leb_gt in Hxy. apply Z.leb_le. lia. }
  induction H as [|r l Hs IH Hhd]; constructor; auto.
  destruct Hhd as [|r' l' Hle]; constructor.
  unfold date_geb in Hle. now apply Z.leb_le.
Qed.

(** What [get_file_df] returns: the entries of the dict, dated, in some
    order that is descending by date. *)
Lemma get_file_df_Ok (to_datetime : string -> option Z)
      (file_list : list string) (cat : list Catalog.row) :
  get_file_df to_datetime file_list = Ok cat ->
  exists d df,
    file_dict file_list [] = Ok d /\
    Forall2 (fun e r => to_datetime (fst (snd e)) = Some (Catalog.Date r) /\
                        Catalog.League r = fst e /\
                        Catalog.File r = snd (snd e)) d df /\
    cat = sort_values_desc df.
Proof.
  unfold get_file_df. intros H.
  apply bind_Ok in H as (d & Hd & H).
  destruct d as [|e d]; [discriminate|].
  apply bind_Ok in H as (df & Hdf & H). injection H as <-.
  exists (e :: d), df. repeat split; auto.
  apply mapM_Ok in Hdf.
  eapply Forall2_impl; [|exact Hdf].
  intros a b Hab; simpl in Hab.
  destruct (to_datetime (fst (snd a))); [|discriminate].
  injection Hab as <-. simpl. auto.
Qed.

Lemma Forall2_map_eq {A B C : Type} (f : A -> C) (g : B -> C) (R : A -> B -> Prop)
      (l : list A) (l' : list B) :
  (forall a b, R a b -> f a = g b) -> Forall2 R l l' -> map f l = map g l'.
Proof.
  intros HR H; induction H; simpl; [reflexivity|].
  f_equal; auto.
Qed.

Lemma Forall2_In_r {A B : Type} (R : A -> B -> Prop) (l : list A) (l' : list B) (b : B) :
  Forall2 R l l' -> In b l' -> exists a, In a l /\ R a b.
Proof.
  intros H; induction H; simpl; intros Hin; [contradiction|].
  destruct Hin as [<- | Hin]; [eauto|].
  destruct (IHForall2 Hin) as (a & Ha & HR); eauto.
Qed.

(** C3, counterexample.  Two files of the same league: the catalog has one
    record, the one of the file listed last; the other file is lost. *)
Lemma get_file_df_same_league_counterexample :
  league_of file_A = league_of file_A2 /\
  file_A <> file_A2 /\
  exists cat,
    get_file_df iso_date [file_A; file_A2] = Ok cat /\
    List.length cat = 1%nat /\
    ~ In file_A (map Catalog.File cat).
Proof.
  split; [reflexivity|]. split; [discriminate|].
  exists [Catalog.mk "A" 18293 file_A2].
  split; [reflexivity|]. split; [reflexivity|].
  simpl. intros [H | []]. discriminate H.
Qed.

(** C3, amended.  A catalog that is built has one record per distinct league
    name (first "."-segment): every listed file has its league in the
    catalog, no league occurs twice, and the record of a league is the one of
    the last file listed for that league, with that file's date segment and
    path; the earlier files of the league are not in the catalog. *)
Theorem get_file_df_one_record_per_league
        (to_datetime : string -> option Z)
        (file_list : list string) (cat : list Catalog.row) :
  get_file_df to_datetime file_list = Ok cat ->
  NoDup (map Catalog.League cat) /\
  (forall f, In f file_list ->
             exists r, In r cat /\ Catalog.League r = league_of f) /\
  (forall r, In r cat ->
             exists l1 l2 date segs,
               file_list = l1 ++ Catalog.File r :: l2 /\
               split "." (Catalog.File r) = Catalog.League r :: date :: segs /\
               to_datetime date = Some (Catalog.Date r) /\
               forall f, In f l2 -> league_of f <> Catalog.League r).
Proof.
  intros H. apply get_file_df_Ok in H as (d & df & Hd & Hall & ->).
  destruct (file_dict_keys _ _ _ Hd) as (Hnd & _ & Hfiles).
  specialize (Hnd (NoDup_nil _)).
  assert (Hkeys : map fst d = map Catalog.League df).
  { eapply Forall2_map_eq; [|exact Hall]. intros a b (_ & Hl & _); auto. }
  pose proof (sort_values_desc_perm df) as Hperm.
  split; [|split].
  - eapply Permutation_NoDup; [apply Permutation_map, Hperm|].
    rewrite <- Hkeys; exact Hnd.
  - intros f Hf. apply Hfiles in Hf. rewrite Hkeys in Hf.
    apply in_map_iff in Hf as (r & Hr & Hin).
    exists r. split; auto. eapply Permutation_in; eauto.
  - intros r Hr.
    apply (Permutation_in _ (Permutation_sym Hperm)) in Hr.
    destruct (Forall2_In_r _ _ _ _ Hall Hr) as ([k [date file]] & He & Hdate & Hl & Hfile).
    simpl in *.
    pose proof (lookup_NoDup_In _ _ _ Hnd He) as Hlk.
    destruct (file_dict_lookup _ _ _ _ _ _ Hd Hlk)
      as [(l1 & l2 & segs & Heq & Hsp & Hl2) | (Habs & _)]; [|discriminate].
    exists l1, l2, date, segs. rewrite Hl, Hfile. auto.
Qed.

Lemma get_file_df_one_record_per_league_witness :
  get_file_df iso_date [file_A; file_B; file_A2]
  = Ok [Catalog.mk "B" 18414 file_B; Catalog.mk "A" 18293 file_A2] /\
  NoDup (map Catalog.League
             [Catalog.mk "B" 18414 file_B; Catalog.mk "A" 18293 file_A2]).
Proof.
  assert (H : get_file_df iso_date [file_A; file_B; file_A2]
              = Ok [Catalog.mk "B" 18414 file_B; Catalog.mk "A" 18293 file_A2])
    by reflexivity.
  split; [exact H|].
  exact (proj1 (get_file_df_one_record_per_league iso_date _ _ H)).
Defined.

(** ** The latest league *)

Lemma fold_left_max_spec (l : list Z) (m : Z) :
  forall a, a <= m -> (forall x, In x l -> x <= m) -> a = m \/ In m l ->
            fold_left Z.max l a = m.
Proof.
  induction l as [|x l IH]; simpl; intros a Ha Hall Hex.
  - destruct Hex as [-> | []]; reflexivity.
  - apply IH.
    + specialize (Hall x (or_introl eq_refl)). lia.
    + intros y Hy; auto.
    + specialize (Hall x (or_introl eq_refl)).
      destruct Hex as [-> | [-> | Hin]]; auto; left; lia.
Qed.

Lemma max_date_spec (df : list Catalog.row) (m : Z) (r : Catalog.row) :
  (forall r', In r' df -> Catalog.Date r' <= m) ->
  In r df -> Catalog.Date r = m ->
  max_date df = Some m.
Proof.
  intros Hall Hin Hm. destruct df as [|r0 df]; [contradiction|].
  simpl. f_equal. apply fold_left_max_spec.
  - apply Hall; simpl; auto.
  - intros x Hx. apply in_map_iff in Hx as (r' & <- & Hr'). apply Hall; simpl; auto.
  - destruct Hin as [-> | Hin]; [left; exact Hm|].
    right. rewrite <- Hm. apply in_map; exact Hin.
Qed.

Section LatestLeague.
Variable to_datetime : string -> option Z.
Variable read_csv : string -> option (list Raw.row).

Lemma get_latest_league_data_filter (df : list Catalog.row) (m : Z) (r : Catalog.row) :
  (forall r', In r' df -> Catalog.Date r' <= m) ->
  In r (filter (fun r' => Catalog.Date r' =? m) df) ->
  get_latest_league_data to_datetime read_csv df =
  match map Catalog.File (filter (fun r' => Catalog.Date r' =? m) df) with
  | [latest_league_file_dir] => extract_df to_datetime read_csv latest_league_file_dir
  | _ => Raise ValueError
  end.
Proof.
  intros Hall Hin. apply filter_In in Hin as [Hin Hm]. apply Z.eqb_eq in Hm.
  unfold get_latest_league_data. rewrite (max_date_spec df m r Hall Hin Hm).
  reflexivity.
Qed.

(** C5, amended.  With [m] the latest date of the catalog: when two or more
    records carry it, [get_latest_league_data] raises ([ValueError], from
    unpacking a sequence that is not of length one); when exactly one record
    [r] carries it, the result is the result of extracting the file of [r]:
    the extracted rows where that extraction succeeds, its exception where
    it raises. *)
Theorem get_latest_league_data_unique_max (df : list Catalog.row) (m : Z) :
  (forall r, In r df -> Catalog.Date r <= m) ->
  ((2 <= List.length (filter (fun r => (Catalog.Date r =? m)%Z) df))%nat ->
   get_latest_league_data to_datetime read_csv df = Raise ValueError) /\
  (forall r, filter (fun r' => Catalog.Date r' =? m) df = [r] ->
             get_latest_league_data to_datetime read_csv df =
             extract_df to_datetime read_csv (Catalog.File r)).
Proof.
  intros Hall. split.
  - intros Hlen.
    destruct (filter (fun r => Catalog.Date r =? m) df) as [|r1 [|r2 sel]] eqn:Hsel;
      simpl in Hlen; try lia.
    rewrite (get_latest_league_data_filter df m r1 Hall)
      by (rewrite Hsel; simpl; auto).
    rewrite Hsel. reflexivity.
  - intros r Hsel.
    rewrite (get_latest_league_data_filter df m r Hall)
      by (rewrite Hsel; simpl; auto).
    rewrite Hsel. reflexivity.
Qed.
End LatestLeague.

(** C5, counterexample.  A catalog whose latest date is carried by exactly
    one record, the one of a dump without a row priced in the base currency:
    the selection does not return data, it raises the [KeyError] of the
    extraction. *)
Lemma get_latest_league_data_unique_max_counterexample :
  let df_files := [Catalog.mk "N" 18353 file_nobase; Catalog.mk "A" 18262 file_A] in
  get_file_df iso_date [file_A; file_nobase] = Ok df_files /\
  (forall r, In r df_files -> Catalog.Date r <= 18353) /\
  filter (fun r => Catalog.Date r =? 18353) df_files
  = [Catalog.mk "N" 18353 file_nobase] /\
  get_latest_league_data iso_date sample_read_csv df_files = Raise KeyError /\
  ~ exists d, get_latest_league_data iso_date sample_read_csv df_files = Ok d.
Proof.
  cbv zeta. split; [reflexivity|]. split.
  - intros r [<- | [<- | []]]; simpl; lia.
  - split; [reflexivity|]. split; [reflexivity|].
    intros (d & Hd). vm_compute in Hd. discriminate Hd.
Qed.

Lemma get_latest_league_data_unique_max_witness :
  get_latest_league_data iso_date sample_read_csv
    [Catalog.mk "B" 18414 file_B; Catalog.mk "A" 18414 file_A] = Raise ValueError /\
  get_latest_league_data iso_date sample_read_csv sample_catalog =
  extract_df iso_date sample_read_csv file_B.
Proof.
  split.
  - refine (proj1 (get_latest_league_data_unique_max iso_date sample_read_csv
                     [Catalog.mk "B" 18414 file_B; Catalog.mk "A" 18414 file_A]
                     18414 _) _).
    + intros r [<- | [<- | []]]; simpl; lia.
    + simpl; lia.
  - refine (proj2 (get_latest_league_data_unique_max iso_date sample_read_csv
                     sample_catalog 18414 _) (Catalog.mk "B" 18414 file_B) _).
    + intros r [<- | [<- | []]]; simpl; lia.
    + reflexivity.
Defined.

(** ** Extraction *)

Lemma mapM_total {A B : Type} (f : A -> result B) (l : list A) :
  (forall a, In a l -> exists b, f a = Ok b) -> exists l', mapM f l = Ok l'.
Proof.
  induction l as [|a l IH]; simpl; intros H; [eauto|].
  destruct (H a (or_introl eq_refl)) as (b & ->).
  destruct IH as (bs & ->); [intros a' Ha'; apply H; auto|].
  simpl; eauto.
Qed.

Lemma combine_seq_label {A : Type} (rows : list A) :
  forall s p, In p (combine (seq s (List.length rows)) rows) -> (s <= fst p)%nat.
Proof.
  induction rows as [|r rows IH]; simpl; intros s p Hin; [contradiction|].
  destruct Hin as [<- | Hin]; simpl; [lia|].
  apply IH in Hin. lia.
Qed.

Lemma filter_combine_snd {A : Type} (p : A -> bool) (rows : list A) :
  forall s, map snd (filter (fun r => p (snd r)) (combine (seq s (List.length rows)) rows))
            = filter p rows.
Proof.
  induction rows as [|r rows IH]; simpl; intros s; auto.
  destruct (p r); simpl; rewrite IH; reflexivity.
Qed.

Lemma lookup_label_None {V : Type} (l : list (nat * V)) :
  (forall p, In p l -> (1 <= fst p)%nat) -> lookup Nat.eqb 0%nat l = None.
Proof.
  induction l as [|[i v] l IH]; simpl; intros H; auto.
  pose proof (H (i, v) (or_introl eq_refl)) as Hi; simpl in Hi.
  destruct i; [lia|]. simpl. apply IH. intros p Hp; apply H; auto.
Qed.

Lemma Forall2_map_l {A B C : Type} (f : A -> C) (R : C -> B -> Prop)
      (l : list A) (l' : list B) :
  Forall2 (fun a b => R (f a) b) l l' -> Forall2 R (map f l) l'.
Proof. intros H; induction H; simpl; constructor; auto. Qed.

Lemma Forall2_map_r {A B C : Type} (f : B -> C) (R : A -> C -> Prop)
      (l : list A) (l' : list B) :
  Forall2 (fun a b => R a (f b)) l l' -> Forall2 R l (map f l').
Proof. intros H; induction H; simpl; constructor; auto. Qed.

Lemma fold_left_min_le (l : list Z) :
  forall a, fold_left Z.min l a <= a /\ forall x, In x l -> fold_left Z.min l a <= x.
Proof.
  induction l as [|y l IH]; simpl; intros a.
  - split; [lia | intros x []].
  - destruct (IH (Z.min a y)) as [H1 H2]. split; [lia|].
    intros x [<- | Hx]; [lia | auto].
Qed.

Lemma fold_left_min_eq (l : list Z) :
  forall a, (forall x, In x l -> a <= x) -> fold_left Z.min l a = a.
Proof.
  induction l as [|y l IH]; simpl; intros a H; auto.
  rewrite Z.min_l by (apply H; auto). apply IH. intros x Hx; apply H; auto.
Qed.

Section Extraction.
Variable to_datetime : string -> option Z.
Variable read_csv : string -> option (list Raw.row).

(** The conversion of the [Date] column of the retained rows. *)
Let convert (r : nat * Raw.row) : result (nat * Extracted.row) :=
  match to_datetime (Raw.Date (snd r)) with
  | Some d =>
      Ok (fst r,
          Extracted.mk (Raw.League (snd r)) d (Raw.Get (snd r)) (Raw.Value (snd r)))
  | None => Raise ValueError
  end.

Lemma convert_cases (r : nat * Raw.row) :
  (exists b, convert r = Ok b) \/ convert r = Raise ValueError.
Proof. unfold convert. destruct (to_datetime _); eauto. Qed.

Lemma convert_label (l : list (nat * Raw.row)) (l' : list (nat * Extracted.row)) :
  mapM convert l = Ok l' -> map fst l' = map fst l.
Proof.
  intros H. apply mapM_Ok in H. symmetry.
  eapply Forall2_map_eq; [|exact H].
  intros a b Hab. unfold convert in Hab.
  destruct (to_datetime _); [|discriminate]. injection Hab as <-. reflexivity.
Qed.

(** Without row 0 among the retained rows there is no anchor. *)
Lemma extract_df_no_anchor (file_path : string) (rows : list Raw.row) :
  read_csv file_path = Some rows ->
  (forall r, nth_error rows 0 = Some r -> Raw.Pay r <> base_currency) ->
  (extract_df to_datetime read_csv file_path = Raise KeyError \/
   extract_df to_datetime read_csv file_path = Raise ValueError) /\
  ((forall r, In r rows -> Raw.Pay r = base_currency ->
              to_datetime (Raw.Date r) <> None) ->
   extract_df to_datetime read_csv file_path = Raise KeyError).
Proof.
  intros Hread Hfirst. unfold extract_df. rewrite Hread.
  fold convert.
  set (kept := filter _ _).
  assert (Hlab : forall p, In p kept -> (1 <= fst p)%nat).
  { intros p Hp. apply filter_In in Hp as [Hp Hpay].
    destruct rows as [|r0 rest]; [contradiction|].
    simpl in Hp. destruct Hp as [<- | Hp].
    - simpl in Hpay. apply String.eqb_eq in Hpay.
      exfalso. apply (Hfirst r0); auto.
    - apply combine_seq_label in Hp. exact Hp. }
  assert (Hkey : forall l', mapM convert kept = Ok l' ->
                            lookup Nat.eqb 0%nat l' = None).
  { intros l' Hl'. apply lookup_label_None. intros p Hp.
    apply (in_map fst) in Hp. rewrite (convert_label _ _ Hl') in Hp.
    apply in_map_iff in Hp as (q & <- & Hq). auto. }
  split.
  - destruct (mapM_cases convert ValueError kept) as [(l' & Hl') | Hr].
    + intros a _; apply convert_cases.
    + left. rewrite Hl'. simpl. now rewrite (Hkey l' Hl').
    + right. rewrite Hr. reflexivity.
  - intros Hparse.
    destruct (mapM_total convert kept) as (l' & Hl').
    + intros a Ha. apply filter_In in Ha as [Ha Hpay].
      apply String.eqb_eq in Hpay.
      assert (Hin : In (snd a) rows).
      { destruct a as [i r]. eapply in_combine_r; exact Ha. }
      specialize (Hparse _ Hin Hpay). unfold convert.
      destruct (to_datetime _); [eauto | congruence].
    + rewrite Hl'. simpl. now rewrite (Hkey l' Hl').
Qed.

(** C10.  A dump whose first row is not priced in the base currency makes
    [extract_df] raise, whatever the later rows are: [KeyError] from the
    lookup of label 0, unless converting the date of a retained row has
    already raised ([ValueError]). *)
Theorem extract_df_first_row_not_base_raises
        (file_path : string) (r0 : Raw.row) (rest : list Raw.row) :
  read_csv file_path = Some (r0 :: rest) ->
  Raw.Pay r0 <> base_currency ->
  (extract_df to_datetime read_csv file_path = Raise KeyError \/
   extract_df to_datetime read_csv file_path = Raise ValueError) /\
  ((forall r, In r rest -> Raw.Pay r = base_currency ->
              to_datetime (Raw.Date r) <> None) ->
   extract_df to_datetime read_csv file_path = Raise KeyError).
Proof.
  intros Hread Hpay.
  destruct (extract_df_no_anchor file_path (r0 :: rest) Hread) as [H1 H2].
  - intros r [= <-]; exact Hpay.
  - split; [exact H1|]. intros Hparse. apply H2.
    intros r [<- | Hr] Hb; [contradiction | auto].
Qed.
Lemma get_data_joined_raises (df : list Catalog.row) (latest : list string)
      (file_path : string) :
  In file_path (map Catalog.File df) ->
  (exists e, extract_df to_datetime read_csv file_path = Raise e) ->
  exists e, get_data_joined to_datetime read_csv df latest = Raise e.
Proof.
  intros Hin (e & He). unfold get_data_joined.
  assert (Htab : league_table to_datetime read_csv file_path latest = Raise e)
    by (unfold league_table; rewrite He; reflexivity).
  destruct (map Catalog.File df) as [|first rest]; [contradiction|].
  destruct Hin as [-> | Hin].
  - rewrite Htab. simpl; eauto.
  - destruct (league_table to_datetime read_csv first latest) as [t|e']; simpl; eauto.
    apply foldM_raises with (b := file_path); auto.
    intros a. rewrite Htab. simpl; eauto.
Qed.

(** C4, amended.  A dump none of whose rows is priced in the base currency
    makes [extract_df] raise [KeyError] (the anchor row, label 0, is not
    among the retained rows): no empty table is returned, and [get_data] on a
    catalog that lists such a file raises too. *)
Theorem extract_df_no_base_rows_raises (file_path : string) (rows : list Raw.row) :
  read_csv file_path = Some rows ->
  (forall r, In r rows -> Raw.Pay r <> base_currency) ->
  extract_df to_datetime read_csv file_path = Raise KeyError /\
  forall df latest,
    In file_path (map Catalog.File df) ->
    exists e, get_data to_datetime read_csv df latest = Raise e.
Proof.
  intros Hread Hpay.
  assert (Hex : extract_df to_datetime read_csv file_path = Raise KeyError).
  { destruct (extract_df_no_anchor file_path rows Hread) as [_ H2].
    - intros r Hr. apply Hpay. eapply nth_error_In; eauto.
    - apply H2. intros r Hr Hb. exfalso; eapply Hpay; eauto. }
  split; [exact Hex|].
  intros df latest Hin. unfold get_data.
  destruct (get_data_joined_raises df latest file_path Hin) as (e & ->);
    [exists KeyError; exact Hex|].
  simpl; eauto.
Qed.

(** What a successful extraction returns, in terms of the rows of the dump:
    row 0 is retained and its date [a] is the anchor. *)
Lemma extract_df_Ok (file_path : string) (d : labelled) :
  extract_df to_datetime read_csv file_path = Ok d ->
  exists r0 rest a,
    read_csv file_path = Some (r0 :: rest) /\
    Raw.Pay r0 = base_currency /\
    to_datetime (Raw.Date r0) = Some a /\
    Forall2 (fun raw ex =>
               exists t, to_datetime (Raw.Date raw) = Some t /\
                         snd ex = Extracted.mk (Raw.League raw) (t - a)
                                               (Raw.Get raw) (Raw.Value raw))
            (filter (fun r => String.eqb (Raw.Pay r) base_currency) (r0 :: rest)) d.
Proof.
  intros H.
  destruct (read_csv file_path) as [rows|] eqn:Hread;
    [|unfold extract_df in H; rewrite Hread in H; discriminate].
  destruct rows as [|r0 rest].
  { destruct (extract_df_no_anchor file_path [] Hread) as [[H1 | H1] _];
      [intros r Hr; discriminate Hr | congruence | congruence]. }
  destruct (String.eqb_spec (Raw.Pay r0) base_currency) as [Hpay | Hpay].
  2: { destruct (extract_df_no_anchor file_path (r0 :: rest) Hread) as [[H1 | H1] _];
       [intros r [= <-]; exact Hpay | congruence | congruence]. }
  unfold extract_df in H. rewrite Hread in H. fold convert in H.
  apply bind_Ok in H as (conv & Hconv & H).
  pose proof (filter_combine_snd (fun r => String.eqb (Raw.Pay r) base_currency)
                                 (r0 :: rest) 0) as Hsnd.
  simpl in Hconv, Hsnd. rewrite Hpay in Hconv, Hsnd. simpl in Hconv, Hsnd.
  apply bind_Ok in Hconv as (x0 & Hx0 & Hconv).
  apply bind_Ok in Hconv as (conv' & Hconv' & Hconv).
  injection Hconv as <-.
  unfold convert in Hx0; simpl in Hx0.
  destruct (to_datetime (Raw.Date r0)) as [a|] eqn:Ha; [|discriminate].
  injection Hx0 as <-. simpl in H. injection H as <-.
  exists r0, rest, a. repeat split; auto.
  simpl. rewrite Hpay. simpl.
  constructor.
  - exists a. auto.
  - injection Hsnd as Hsnd. rewrite <- Hsnd.
    apply Forall2_map_l, Forall2_map_r.
    apply mapM_Ok in Hconv'.
    eapply Forall2_impl; [|exact Hconv'].
    intros p q Hpq. unfold convert in Hpq.
    destruct (to_datetime (Raw.Date (snd p))) as [t|]; [|discriminate].
    injection Hpq as <-. simpl. eauto.
Qed.

(** C2, amended.  After a successful extraction every row has as elapsed
    time its date minus the date of the first row of the dump as read, and
    the first extracted row has elapsed time zero; the smallest elapsed time
    is therefore at most zero, and it is zero exactly when no retained row is
    dated before the first row. *)
Theorem extract_df_elapsed_from_first_row (file_path : string) (d : labelled) :
  extract_df to_datetime read_csv file_path = Ok d ->
  exists r0 rest a,
    read_csv file_path = Some (r0 :: rest) /\
    to_datetime (Raw.Date r0) = Some a /\
    Forall2 (fun raw ex =>
               exists t, to_datetime (Raw.Date raw) = Some t /\
                         Extracted.Date (snd ex) = t - a)
            (filter (fun r => String.eqb (Raw.Pay r) base_currency) (r0 :: rest)) d /\
    (exists x, hd_error d = Some x /\ Extracted.Date (snd x) = 0) /\
    exists m, min_elapsed d = Some m /\ m <= 0 /\
              (m = 0 <-> forall x, In x d -> 0 <= Extracted.Date (snd x)).
Proof.
  intros H. apply extract_df_Ok in H as (r0 & rest & a & Hread & Hpay & Ha & Hall).
  exists r0, rest, a. split; [exact Hread|]. split; [exact Ha|]. split.
  { eapply Forall2_impl; [|exact Hall].
    intros raw ex (t & Ht & Hex). exists t. rewrite Hex. auto. }
  simpl in Hall. rewrite Hpay in Hall. simpl in Hall.
  inversion Hall as [|raw x l l' (t & Ht & Hx) Hrest]; subst.
  assert (Hx0 : Extracted.Date (snd x) = 0).
  { rewrite Hx. simpl. rewrite Ht in Ha. injection Ha as ->. lia. }
  split; [exists x; auto|].
  unfold min_elapsed. simpl. rewrite Hx0.
  set (ts := map (fun r => Extracted.Date (snd r)) l').
  destruct (fold_left_min_le ts 0) as [Hle Hmin].
  eexists; split; [reflexivity|]. split; [exact Hle|]. split.
  - intros Hm y [<- | Hy]; [lia|].
    rewrite <- Hm. apply Hmin. unfold ts. apply in_map_iff; eauto.
  - intros Hpos. apply fold_left_min_eq.
    intros t' Ht'. unfold ts in Ht'. apply in_map_iff in Ht' as (y & <- & Hy).
    apply Hpos; simpl; auto.
Qed.
End Extraction.

(** C10, on the sample dumps: rows of [dump_nobase] followed by the rows of
    league A. *)
Lemma extract_df_first_row_not_base_raises_witness :
  extract_df iso_date (fun _ => Some (dump_nobase ++ dump_A)) file_A = Raise KeyError.
Proof.
  refine (proj2 (extract_df_first_row_not_base_raises
                   iso_date (fun _ => Some (dump_nobase ++ dump_A)) file_A
                   (Raw.mk "N" "2020-04-01" "Chaos Orb" "Exalted Orb" (1 # 100)%Q)
                   _ eq_refl _) _).
  - discriminate.
  - intros r Hr _. simpl in Hr.
    destruct Hr as [<- | [<- | [<- | []]]]; discriminate.
Defined.

(** C4, counterexample.  [dump_nobase] has rows, none priced in the base
    currency; its extraction raises and returns no table, empty or not. *)
Lemma extract_df_no_base_rows_counterexample :
  sample_read_csv file_nobase = Some dump_nobase /\
  dump_nobase <> [] /\
  forallb (fun r => negb (String.eqb (Raw.Pay r) base_currency)) dump_nobase = true /\
  extract_df iso_date sample_read_csv file_nobase = Raise KeyError /\
  ~ exists d, extract_df iso_date sample_read_csv file_nobase = Ok d.
Proof.
  split; [reflexivity|]. split; [discriminate|]. split; [reflexivity|].
  split; [reflexivity|]. intros (d & Hd). vm_compute in Hd. discriminate.
Qed.

Lemma extract_df_no_base_rows_raises_witness :
  extract_df iso_date sample_read_csv file_nobase = Raise KeyError /\
  exists e, get_data iso_date sample_read_csv
                     [Catalog.mk "B" 18414 file_B; Catalog.mk "N" 18353 file_nobase]
                     ["Orb1"; "Orb2"] = Raise e.
Proof.
  assert (Hpay : forall r, In r dump_nobase -> Raw.Pay r <> base_currency)
    by (intros r [<- | [<- | []]]; discriminate).
  pose proof (extract_df_no_base_rows_raises iso_date sample_read_csv
                file_nobase dump_nobase eq_refl Hpay) as [H1 H2].
  split; [exact H1|].
  apply H2. simpl; auto.
Defined.

(** C2, counterexample.  In [dump_unsorted] the second row is dated before
    the first: the extraction has elapsed times 0 and -1, of minimum -1. *)
Lemma extract_df_min_elapsed_counterexample :
  exists d,
    extract_df iso_date sample_read_csv file_unsorted = Ok d /\
    d <> [] /\
    min_elapsed d = Some (-1) /\
    min_elapsed d <> Some 0.
Proof.
  eexists. split; [vm_compute; reflexivity|].
  split; [discriminate|]. split; [reflexivity | discriminate].
Qed.

Lemma extract_df_elapsed_from_first_row_witness :
  let d := [(0%nat, Extracted.mk "B" 0 "Orb1" 5%Q); (1%nat, Extracted.mk "B" 0 "Orb2" 1%Q);
            (2%nat, Extracted.mk "B" 2 "Orb1" 7%Q); (3%nat, Extracted.mk "B" 2 "Orb2" 3%Q)] in
  extract_df iso_date sample_read_csv file_B = Ok d /\
  exists m, min_elapsed d = Some m /\ m <= 0.
Proof.
  intros d.
  assert (Hd : extract_df iso_date sample_read_csv file_B = Ok d) by reflexivity.
  split; [exact Hd|].
  destruct (extract_df_elapsed_from_first_row iso_date sample_read_csv file_B d Hd)
    as (r0 & rest & a & _ & _ & _ & _ & m & Hm & Hle & _).
  exists m. auto.
Defined.

(** ** Grouping *)




(** The cell of a group that has rows is the sum of their values. *)
Lemma at_group_df (df : labelled) (t : Z) (k : colkey) :
  In (t, k) (map key3 (map snd df)) ->
  at_ (group_df df) t k =
  Some (Val (sum (map Extracted.Value
                      (filter (fun r => group_eqb (key3 r) (t, k)) (map snd df))))).
Proof.
  intros Hin. unfold group_df, groupby_sum.
  set (rows := map snd df) in *.
  set (G := sort_uniq group_compare (map key3 rows)).
  assert (HG : In (t, k) G)
    by (apply (sort_uniq_In group_compare group_compare_eq); exact Hin).
  unfold at_, unstack_T; simpl.
  rewrite (lookup_map_key key_eqb _ k) by
      (try exact key_eqb_eq;
       apply (sort_uniq_In key_compare key_compare_eq);
       rewrite map_map; simpl;
       change k with (snd (t, k)); apply (in_map (fun g => snd g)); exact HG).
  rewrite lookup_combine_map by
      (apply (sort_uniq_In Z.compare Z.compare_eq);
       rewrite map_map; simpl;
       change t with (fst (t, k)); apply (in_map (fun g => fst g)); exact HG).
  rewrite (lookup_map_key group_eqb _ (t, k) G group_eqb_eq HG).
  reflexivity.
Qed.

Lemma group_df_with_sum (df : labelled) : group_df_with sum df = group_df df.
Proof. reflexivity. Qed.










(** ** Alignment *)

Lemma in_list_In (s : string) (l : list string) : in_list s l = true <-> In s l.
Proof.
  unfold in_list. rewrite existsb_exists. split.
  - intros (x & Hx & He). apply String.eqb_eq in He; subst; auto.
  - intros H. exists s. split; auto. apply String.eqb_refl.
Qed.

Lemma existsb_key_In (k : colkey) (l : list colkey) :
  existsb (key_eqb k) l = true <-> In k l.
Proof.
  rewrite existsb_exists. split.
  - intros (x & Hx & He). apply key_eqb_eq in He; subst; auto.
  - intros H. exists k. split; auto. apply key_eqb_refl.
Qed.

Lemma Sorted_map {A B : Type} (f : A -> B) (R : B -> B -> Prop) (l : list A) :
  Sorted (fun a b => R (f a) (f b)) l -> Sorted R (map f l).
Proof.
  induction 1 as [|a l Hs IH Hhd]; simpl; constructor; auto.
  destruct Hhd; simpl; constructor; auto.
Qed.

Lemma Sorted_weaken {A : Type} (R R' : A -> A -> Prop) (l : list A) :
  (forall a b, R a b -> R' a b) -> Sorted R l -> Sorted R' l.
Proof.
  intros HR. induction 1 as [|a l Hs IH Hhd]; constructor; auto.
  destruct Hhd; constructor; auto.
Qed.

Section Alignment.
Variable df : DataFrame.
Variable latest : list string.

Let n : nat := List.length (index df).
Let cur0 : list string := map fst (columns df).

(** The body of the loop of [fill_league_currency]. *)
Let body (st : DataFrame) (c : string) : result DataFrame :=
  if in_list c cur0 then Ok st
  else match columns st with
       | [] => Raise IndexError
       | k0 :: _ => Ok (set_column st (c, snd k0) NaN)
       end.

(** A column added by the loop: a canonical currency the table lacked,
    under the league [l0] of the first column, all cells missing. *)
Let added_column (l0 : string) (col : colkey * list cell) : Prop :=
  In (fst (fst col)) latest /\ ~ In (fst (fst col)) cur0 /\
  snd (fst col) = l0 /\ snd col = repeat NaN n.

Lemma column_currency (col : colkey * list cell) :
  In col (data df) -> In (fst (fst col)) cur0.
Proof.
  intros H. unfold cur0, columns. rewrite map_map.
  apply (in_map (fun c => fst (fst c))). exact H.
Qed.

Lemma fill_loop (col0 : colkey * list cell) (tl : list (colkey * list cell)) :
  data df = col0 :: tl ->
  forall l st added,
    (forall c, In c l -> In c latest) ->
    index st = index df ->
    data st = data df ++ added ->
    Forall (added_column (snd (fst col0))) added ->
    exists st' added',
      foldM body l st = Ok st' /\
      index st' = index df /\
      data st' = data df ++ added' /\
      Forall (added_column (snd (fst col0))) added' /\
      (forall col, In col added -> In col added') /\
      (forall c, In c l -> ~ In c cur0 ->
                 In ((c, snd (fst col0)), repeat NaN n) added').
Proof.
  intros Hdata. set (l0 := snd (fst col0)).
  induction l as [|c l IH]; simpl; intros st added Hl Hidx Hst Hadd.
  - exists st, added. repeat split; auto. intros c [].
  - unfold body at 1. destruct (in_list c cur0) eqn:Hc.
    + simpl. destruct (IH st added) as (st' & added' & H1 & H2 & H3 & H4 & H5 & H6); auto.
      exists st', added'. repeat split; auto.
      intros c' [<- | Hc'] Hn; auto.
      apply in_list_In in Hc. contradiction.
    + assert (Hnc : ~ In c cur0)
        by (intros Hin; apply in_list_In in Hin; congruence).
      assert (Hcols : columns st = fst col0 :: map fst (tl ++ added))
        by (unfold columns; rewrite Hst, Hdata; reflexivity).
      rewrite Hcols. simpl. fold l0.
      set (new := ((c, l0), repeat NaN n)).
      assert (Hnew : added_column l0 new)
        by (unfold added_column; simpl; repeat split; auto).
      destruct (existsb (key_eqb (c, l0)) (columns st)) eqn:Hex.
      * (* the column is already there: it was added for an earlier
           occurrence of [c], and is overwritten with the same cells *)
        assert (Hin : In new added).
        { apply existsb_key_In in Hex. unfold columns in Hex.
          apply in_map_iff in Hex as (col & Hk & Hcol).
          rewrite Hst in Hcol. apply in_app_or in Hcol as [Hcol | Hcol].
          - exfalso. apply Hnc. apply column_currency in Hcol.
            rewrite Hk in Hcol. exact Hcol.
          - rewrite Forall_forall in Hadd.
            destruct (Hadd col Hcol) as (_ & _ & _ & Hcells).
            destruct col as [k cells]; simpl in *. subst k cells. exact Hcol. }
        assert (Hsame : set_column st (c, l0) NaN = st).
        { unfold set_column. rewrite Hex. destruct st as [idx dat]; simpl in *.
          f_equal. rewrite <- (map_id dat) at 2. apply map_ext_in.
          intros col Hcol. destruct (key_eqb (fst col) (c, l0)) eqn:Hk; auto.
          apply key_eqb_eq in Hk. rewrite Hst in Hcol.
          apply in_app_or in Hcol as [Hcol | Hcol].
          - exfalso. apply Hnc. apply column_currency in Hcol.
            rewrite Hk in Hcol. exact Hcol.
          - rewrite Forall_forall in Hadd.
            destruct (Hadd col Hcol) as (_ & _ & _ & Hcells).
            destruct col as [k' cells]; simpl in *. subst cells.
            rewrite Hidx. reflexivity. }
        rewrite Hsame.
        destruct (IH st added) as (st' & added' & H1 & H2 & H3 & H4 & H5 & H6); auto.
        exists st', added'. repeat split; auto.
        intros c' [<- | Hc'] Hn; auto.
      * destruct (IH (set_column st (c, l0) NaN) (added ++ [new]))
          as (st' & added' & H1 & H2 & H3 & H4 & H5 & H6); auto.
        { unfold set_column; simpl. rewrite Hex, Hst, Hidx.
          rewrite <- app_assoc. reflexivity. }
        { apply Forall_app; split; auto. }
        exists st', added'. repeat split; auto.
        { intros col Hcol. apply H5, in_or_app; auto. }
        intros c' [<- | Hc'] Hn; auto.
        apply H5, in_or_app. right; simpl; auto.
Qed.

(** With a first column to take the league from, the loop cannot raise. *)
Lemma fill_league_currency_total :
  data df <> [] ->
  exists df', fill_league_currency df latest = Ok df' /\ index df' = index df.
Proof.
  intros Hne. destruct (data df) as [|col0 tl] eqn:Hdata; [congruence|].
  destruct (fill_loop col0 tl Hdata latest df [])
    as (st' & added & Hloop & Hidx & _); auto.
  { rewrite Hdata, app_nil_r; reflexivity. }
  exists (sort_index_axis1 st'). split; [|exact Hidx].
  unfold fill_league_currency. fold cur0. fold body. rewrite Hloop. reflexivity.
Qed.

(** C7.  On a table with at least one column, [fill_league_currency] returns
    a table with the same rows whose columns are the columns of the input,
    cells unchanged, together with one all-missing column for each canonical
    currency the input lacked; every canonical currency has a column, and the
    columns are sorted by key, hence by currency name. *)
Theorem fill_league_currency_aligns :
  data df <> [] ->
  exists df' added,
    fill_league_currency df latest = Ok df' /\
    index df' = index df /\
    Permutation (data df') (data df ++ added) /\
    (forall col, In col added ->
                 In (fst (fst col)) latest /\
                 ~ In (fst (fst col)) (map fst (columns df)) /\
                 snd col = repeat NaN (List.length (index df))) /\
    (forall c, In c latest -> ~ In c (map fst (columns df)) ->
               exists l, In ((c, l), repeat NaN (List.length (index df))) added) /\
    (forall c, In c latest -> In c (map fst (columns df'))) /\
    Sorted (fun k1 k2 => key_leb k1 k2 = true) (columns df') /\
    Sorted (fun k1 k2 => String.leb (fst k1) (fst k2) = true) (columns df').
Proof.
  intros Hne. destruct (data df) as [|col0 tl] eqn:Hdata; [congruence|].
  destruct (fill_loop col0 tl Hdata latest df [])
    as (st' & added & Hloop & Hidx & Hst & Hadd & _ & Hall); auto.
  { rewrite Hdata, app_nil_r; reflexivity. }
  assert (Hsorted : Sorted (fun k1 k2 => key_leb k1 k2 = true)
                           (columns (sort_index_axis1 st'))).
  { unfold columns, sort_index_axis1; simpl. apply Sorted_map.
    apply sort_by_sorted. intros x y. apply key_leb_total. }
  assert (Hperm : Permutation (data (sort_index_axis1 st')) ((col0 :: tl) ++ added)).
  { rewrite <- Hdata, <- Hst. unfold sort_index_axis1; simpl.
    apply Permutation_sym, sort_by_perm. }
  exists (sort_index_axis1 st'), added.
  split; [|split; [|split; [|split; [|split; [|split; [|split]]]]]].
  - unfold fill_league_currency. fold cur0. fold body. rewrite Hloop. reflexivity.
  - exact Hidx.
  - exact Hperm.
  - intros col Hcol. rewrite Forall_forall in Hadd.
    destruct (Hadd col Hcol) as (H1 & H2 & _ & H4). auto.
  - intros c Hc Hn. eauto.
  - intros c Hc. unfold columns. rewrite map_map.
    destruct (in_list c cur0) eqn:Hin.
    + apply in_list_In in Hin. unfold cur0, columns in Hin.
      rewrite map_map, Hdata in Hin.
      apply in_map_iff in Hin as (col & Hk & Hcol).
      apply in_map_iff. exists col. split; auto.
      eapply Permutation_in; [apply Permutation_sym, Hperm|].
      apply in_or_app; auto.
    + assert (Hn : ~ In c cur0)
        by (intros Hc'; apply in_list_In in Hc'; congruence).
      apply in_map_iff. exists ((c, snd (fst col0)), repeat NaN n). split; auto.
      eapply Permutation_in; [apply Permutation_sym, Hperm|].
      apply in_or_app; auto.
  - exact Hsorted.
  - eapply Sorted_weaken; [|exact Hsorted]. apply key_leb_currency.
Qed.
End Alignment.

Lemma fill_league_currency_aligns_witness :
  let df := {| index := [0; 1];
               data := [(("Orb1", "A"), [Val 10%Q; Val 12%Q]);
                        (("Old", "A"), [NaN; Val 1%Q])] |} in
  data df <> [] /\
  fill_league_currency df ["Orb1"; "Orb2"]
  = Ok {| index := [0; 1];
          data := [(("Old", "A"), [NaN; Val 1%Q]);
                   (("Orb1", "A"), [Val 10%Q; Val 12%Q]);
                   (("Orb2", "A"), [NaN; NaN])] |} /\
  exists df', fill_league_currency df ["Orb1"; "Orb2"] = Ok df' /\
              index df' = index df.
Proof.
  intros df.
  assert (Hne : data df <> []) by discriminate.
  split; [exact Hne|]. split; [reflexivity|].
  destruct (fill_league_currency_aligns df ["Orb1"; "Orb2"] Hne)
    as (df' & added & Hfill & Hidx & _).
  exists df'. auto.
Defined.

(** ** One league through the pipeline

    A successful extraction retains row 0, so that the grouped table has a
    column and the alignment of a league never fails. *)

Lemma unstack_T_columns (groups : list (groupkey * Q)) :
  columns (unstack_T groups) =
  sort_uniq key_compare (map (fun g => snd (fst g)) groups).
Proof.
  unfold columns, unstack_T. cbn [data]. rewrite map_map. cbn [fst].
  apply map_id.
Qed.

Lemma group_df_has_column (df : labelled) : df <> [] -> data (group_df df) <> [].
Proof.
  destruct df as [|x df]; [congruence|]. intros _.
  assert (Hk : In (snd (key3 (snd x))) (columns (group_df (x :: df)))).
  { unfold group_df. rewrite unstack_T_columns.
    apply (sort_uniq_In key_compare key_compare_eq).
    unfold groupby_sum. rewrite map_map. cbn [fst].
    apply (in_map (fun g => snd g)).
    apply (sort_uniq_In group_compare group_compare_eq).
    simpl; auto. }
  unfold columns in Hk.
  destruct (data (group_df (x :: df))); [contradiction | discriminate].
Qed.

Lemma league_table_total (to_datetime : string -> option Z)
      (read_csv : string -> option (list Raw.row))
      (file_path : string) (latest : list string) (d : labelled) :
  extract_df to_datetime read_csv file_path = Ok d ->
  exists T, league_table to_datetime read_csv file_path latest = Ok T /\
            index T = index (group_df d).
Proof.
  intros Hd. unfold league_table. rewrite Hd. simpl.
  assert (Hne : d <> []).
  { apply extract_df_Ok in Hd as (r0 & rest & a & _ & Hpay & _ & Hall).
    simpl in Hall. rewrite Hpay in Hall. simpl in Hall.
    inversion Hall; discriminate. }
  apply fill_league_currency_total, group_df_has_column, Hne.
Qed.

(** ** The join *)

Lemma lookup_In_Some {V : Type} (k : colkey) (l : list (colkey * V)) :
  In k (map fst l) -> exists v, lookup key_eqb k l = Some v.
Proof.
  induction l as [|[k' v] l IH]; simpl; intros Hin; [contradiction|].
  destruct (key_eqb k' k) eqn:E; [eauto|].
  destruct Hin as [-> | Hin]; auto.
  rewrite key_eqb_refl in E; discriminate.
Qed.

Lemma lookup_map_cells {V W : Type} (f : colkey * V -> W) (k : colkey)
      (l : list (colkey * V)) :
  lookup key_eqb k (map (fun c => (fst c, f c)) l) =
  match lookup key_eqb k (map (fun c => (fst c, c)) l) with
  | Some c => Some (f c)
  | None => None
  end.
Proof.
  induction l as [|[k' v] l IH]; simpl; auto.
  destruct (key_eqb k' k); auto.
Qed.

Lemma lookup_entry {V : Type} (k : colkey) (l : list (colkey * V)) :
  lookup key_eqb k (map (fun c => (fst c, c)) l) =
  match lookup key_eqb k l with
  | Some v => Some (k, v)
  | None => None
  end.
Proof.
  induction l as [|[k' v] l IH]; simpl; auto.
  destruct (key_eqb k' k) eqn:E; auto.
  apply key_eqb_eq in E; subst; reflexivity.
Qed.

Lemma join_Ok (left right T : DataFrame) :
  join left right = Ok T ->
  index T = index left /\
  data T = data left ++
           map (fun c => (fst c, reindex (index right) (snd c) (index left)))
               (data right) /\
  (forall k, In k (columns right) -> existsb (key_eqb k) (columns left) = false).
Proof.
  unfold join. destruct (existsb _ (columns left)) eqn:Hov; [discriminate|].
  intros [= <-]. simpl. repeat split.
  intros k Hk. destruct (existsb (key_eqb k) (columns left)) eqn:E; auto.
  apply existsb_key_In in E.
  assert (Habs : existsb (fun k => existsb (key_eqb k) (columns right))
                         (columns left) = true).
  { apply existsb_exists. exists k. split; auto. now apply existsb_key_In. }
  congruence.
Qed.

Lemma join_columns (left right T : DataFrame) :
  join left right = Ok T -> columns T = columns left ++ columns right.
Proof.
  intros H. apply join_Ok in H as (_ & Hd & _).
  unfold columns. rewrite Hd, map_app, map_map. reflexivity.
Qed.

(** The columns of the left table are kept as they are. *)
Lemma join_at_left (left right T : DataFrame) (t : Z) (k : colkey) :
  join left right = Ok T -> In k (columns left) -> at_ T t k = at_ left t k.
Proof.
  intros H Hk. apply join_Ok in H as (Hi & Hd & _).
  unfold at_. rewrite Hd, Hi, lookup_app.
  destruct (lookup_In_Some k (data left) Hk) as (v & ->). reflexivity.
Qed.

(** A column of the right table is read at the rows of the left one: its
    cell where the right table has the row, a missing cell where not. *)
Lemma join_at_right (left right T : DataFrame) (t : Z) (k : colkey) :
  join left right = Ok T -> In k (columns right) -> In t (index left) ->
  at_ T t k = Some (cell_or_nan right t k).
Proof.
  intros H Hk Ht. apply join_Ok in H as (Hi & Hd & Hno).
  unfold cell_or_nan, at_. rewrite Hd, Hi, lookup_app.
  rewrite (lookup_None_notin k (data left)) by (apply Hno; exact Hk).
  rewrite (lookup_map_cells
             (fun c => reindex (index right) (snd c) (index left))).
  rewrite lookup_entry.
  destruct (lookup_In_Some k (data right) Hk) as (cells & ->). simpl.
  unfold reindex. rewrite lookup_combine_map by exact Ht. reflexivity.
Qed.

Section Join.
Variable to_datetime : string -> option Z.
Variable read_csv : string -> option (list Raw.row).
Variable latest : list string.

Let table (file_path : string) : result DataFrame :=
  league_table to_datetime read_csv file_path latest.

(** The body of the loop of [get_data]. *)
Let step (df : DataFrame) (file_path : string) : result DataFrame :=
  do league_grp <- table file_path; join df league_grp.

Lemma get_data_loop (rest : list string) :
  forall acc T,
    foldM step rest acc = Ok T ->
    index T = index acc /\
    (forall t k, In k (columns acc) -> at_ T t k = at_ acc t k) /\
    (forall p, In p rest ->
               exists Tp, table p = Ok Tp /\
                          forall t k, In t (index acc) -> In k (columns Tp) ->
                                      at_ T t k = Some (cell_or_nan Tp t k)).
Proof.
  induction rest as [|p rest IH]; simpl; intros acc T H.
  - injection H as <-. repeat split; auto. intros p [].
  - apply bind_Ok in H as (acc' & Hstep & H).
    unfold step in Hstep. apply bind_Ok in Hstep as (Tp & HTp & Hjoin).
    destruct (IH _ _ H) as (Hi & Hleft & Hrest).
    pose proof (join_Ok _ _ _ Hjoin) as (Hi' & _ & _).
    pose proof (join_columns _ _ _ Hjoin) as Hcols.
    split; [congruence|]. split.
    + intros t k Hk. rewrite Hleft by (rewrite Hcols; apply in_or_app; auto).
      apply (join_at_left _ _ _ _ _ Hjoin Hk).
    + intros p' [<- | Hp'].
      * exists Tp. split; auto. intros t k Ht Hk.
        rewrite Hleft by (rewrite Hcols; apply in_or_app; auto).
        apply (join_at_right _ _ _ _ _ Hjoin Hk Ht).
      * destruct (Hrest p' Hp') as (Tp' & HTp' & Hcells).
        exists Tp'. split; auto. intros t k Ht Hk.
        apply Hcells; auto. rewrite Hi'; exact Ht.
Qed.

(** C1, amended.  The combined table is a left join onto the table of the
    first file of the catalog (the most recent league): its rows are exactly
    the elapsed times of that first table, whose columns are kept as they
    are; for every other file, each of its columns is read at these rows,
    with the league's cell where the league has the elapsed time and a
    missing cell where it has not.  Elapsed times that the first league
    lacks have no row.  [get_data] returns this table with its rows
    relabelled 0, 1, 2, ... *)
Theorem get_data_left_join (df : list Catalog.row) (T : DataFrame) :
  get_data_joined to_datetime read_csv df latest = Ok T ->
  exists first rest T0,
    map Catalog.File df = first :: rest /\
    league_table to_datetime read_csv first latest = Ok T0 /\
    index T = index T0 /\
    (forall t k, In k (columns T0) -> at_ T t k = at_ T0 t k) /\
    (forall p, In p rest ->
               exists Tp,
                 league_table to_datetime read_csv p latest = Ok Tp /\
                 forall t k, In t (index T0) -> In k (columns Tp) ->
                             at_ T t k = Some (cell_or_nan Tp t k)) /\
    get_data to_datetime read_csv df latest =
    Ok {| index := map Z.of_nat (seq 0 (List.length (index T0)));
          data := data T |}.
Proof.
  intros H. unfold get_data. rewrite H. unfold get_data_joined in H.
  destruct (map Catalog.File df) as [|first rest]; [discriminate|].
  apply bind_Ok in H as (T0 & HT0 & Hloop).
  destruct (get_data_loop rest T0 T Hloop) as (Hi & Hleft & Hrest).
  exists first, rest, T0. repeat split; auto.
  simpl. unfold reset_index. rewrite Hi. reflexivity.
Qed.
End Join.

(** C1, counterexample.  The two sample leagues: league A has the elapsed
    times 0 and 1, league B, the most recent, 0 and 2.  The combined table
    has the rows of B only: the elapsed time 1 of league A has no row, and
    the table that [get_data] returns has two rows, not three. *)
Lemma get_data_outer_join_counterexample :
  get_file_df iso_date [file_A; file_B] = Ok sample_catalog /\
  get_latest_currency_list iso_date sample_read_csv sample_catalog
  = Ok ["Orb1"; "Orb2"] /\
  exists T TA G,
    get_data_joined iso_date sample_read_csv sample_catalog ["Orb1"; "Orb2"] = Ok T /\
    league_table iso_date sample_read_csv file_A ["Orb1"; "Orb2"] = Ok TA /\
    get_data iso_date sample_read_csv sample_catalog ["Orb1"; "Orb2"] = Ok G /\
    In 1 (index TA) /\
    ~ In 1 (index T) /\
    List.length (index G) = 2%nat.
Proof.
  split; [reflexivity|]. split; [reflexivity|].
  do 3 eexists.
  split; [vm_compute; reflexivity|].
  split; [vm_compute; reflexivity|].
  split; [vm_compute; reflexivity|].
  split; [simpl; auto|]. split; [|reflexivity].
  simpl. intros [H | [H | []]]; discriminate.
Qed.

Lemma get_data_left_join_witness :
  let T := {| index := [0; 2];
              data := [(("Orb1", "B"), [Val 5%Q; Val 7%Q]);
                       (("Orb2", "B"), [Val 1%Q; Val 3%Q]);
                       (("Orb1", "A"), [Val 10%Q; NaN]);
                       (("Orb2", "A"), [NaN; NaN])] |} in
  get_data_joined iso_date sample_read_csv sample_catalog ["Orb1"; "Orb2"] = Ok T /\
  get_data iso_date sample_read_csv sample_catalog ["Orb1"; "Orb2"]
  = Ok {| index := [0; 1]; data := data T |} /\
  exists T0,
    league_table iso_date sample_read_csv file_B ["Orb1"; "Orb2"] = Ok T0 /\
    index T = index T0.
Proof.
  intros T.
  assert (H : get_data_joined iso_date sample_read_csv sample_catalog
                              ["Orb1"; "Orb2"] = Ok T) by reflexivity.
  split; [exact H|]. split; [reflexivity|].
  destruct (get_data_left_join iso_date sample_read_csv _ _ _ H)
    as (first & rest & T0 & Hfiles & HT0 & Hi & _).
  injection Hfiles as <- <-.
  exists T0. auto.
Defined.

(** ** The importer *)

Section Importer.
Variable to_datetime : string -> option Z.
Variable read_csv : string -> option (list Raw.row).

Lemma init_Ok (csv_files : list string) (imp : PoEDataImporter) :
  init to_datetime read_csv csv_files = Ok imp ->
  currency_file_path_list imp = get_currency_file_paths csv_files /\
  get_file_df to_datetime (currency_file_path_list imp) = Ok (df_files imp) /\
  league_names imp = map Catalog.League (df_files imp).
Proof.
  unfold init. intros H.
  apply bind_Ok in H as (cat & Hcat & H).
  apply bind_Ok in H as (cur & Hcur & H).
  apply bind_Ok in H as (T & HT & H).
  injection H as <-. simpl. auto.
Qed.

(** The leagues of a catalog: those of the listed files, each one once. *)
Lemma catalog_leagues (file_list : list string) (cat : list Catalog.row) :
  get_file_df to_datetime file_list = Ok cat ->
  NoDup (map Catalog.League cat) /\
  (forall l, In l (map Catalog.League cat) <->
             exists f, In f file_list /\ league_of f = l).
Proof.
  intros H. apply get_file_df_Ok in H as (d & dated & Hd & Hall & ->).
  destruct (file_dict_keys _ _ _ Hd) as (Hnd & _ & Hfiles).
  specialize (Hnd (NoDup_nil _)).
  assert (Hkeys : map fst d = map Catalog.League dated).
  { eapply Forall2_map_eq; [|exact Hall]. intros a b (_ & Hl & _); auto. }
  assert (Hperm : Permutation (map Catalog.League dated)
                              (map Catalog.League (sort_values_desc dated)))
    by apply Permutation_map, sort_values_desc_perm.
  split.
  - eapply Permutation_NoDup; [exact Hperm|]. rewrite <- Hkeys; exact Hnd.
  - intros l. split.
    + intros Hl. apply (Permutation_in _ (Permutation_sym Hperm)) in Hl.
      rewrite <- Hkeys in Hl. apply in_map_iff in Hl as ([k [date file]] & <- & He).
      pose proof (lookup_NoDup_In _ _ _ Hnd He) as Hlk.
      destruct (file_dict_lookup _ _ _ _ _ _ Hd Hlk)
        as [(l1 & l2 & segs & -> & Hsp & _) | (Habs & _)]; [|discriminate].
      exists file. split; [apply in_or_app; right; simpl; auto|].
      unfold league_of. rewrite Hsp. reflexivity.
    + intros (f & Hf & <-). apply (Permutation_in _ Hperm).
      rewrite <- Hkeys. apply Hfiles, Hf.
Qed.

(** C8, amended.  The league names handed to the renderer are the [League]
    column of the catalog, in the order of the catalog: by snapshot date,
    most recent first.  They are the league names of the discovered currency
    files, each one once. *)
Theorem league_names_in_catalog_order
        (csv_files : list string) (imp : PoEDataImporter) :
  init to_datetime read_csv csv_files = Ok imp ->
  league_names imp = map Catalog.League (df_files imp) /\
  Sorted (fun r1 r2 => Catalog.Date r2 <= Catalog.Date r1) (df_files imp) /\
  NoDup (league_names imp) /\
  (forall l, In l (league_names imp) <->
             exists f, In f (currency_file_path_list imp) /\ league_of f = l).
Proof.
  intros H. apply init_Ok in H as (_ & Hcat & Hnames).
  destruct (catalog_leagues _ _ Hcat) as (Hnd & Hleagues).
  apply get_file_df_Ok in Hcat as (d & dated & _ & _ & Hsort).
  rewrite Hnames. split; [reflexivity|]. split; [|split].
  - rewrite Hsort. apply sort_values_desc_sorted.
  - exact Hnd.
  - exact Hleagues.
Qed.
End Importer.

(** C8, counterexample.  League A is discovered first and league B is the
    more recent one: the renderer is handed B before A. *)
Lemma league_names_discovery_order_counterexample :
  exists imp,
    init iso_date sample_read_csv [file_A; file_B] = Ok imp /\
    currency_file_path_list imp = [file_A; file_B] /\
    map league_of (currency_file_path_list imp) = ["A"; "B"] /\
    league_names imp = ["B"; "A"] /\
    league_names imp <> map league_of (currency_file_path_list imp).
Proof.
  eexists. split; [vm_compute; reflexivity|].
  split; [reflexivity|]. split; [reflexivity|]. split; [reflexivity|].
  discriminate.
Qed.

Lemma league_names_in_catalog_order_witness :
  exists imp,
    init iso_date sample_read_csv [file_A; file_B] = Ok imp /\
    league_names imp = map Catalog.League (df_files imp) /\
    league_names imp = ["B"; "A"].
Proof.
  eexists. split; [vm_compute; reflexivity|]. split; [|reflexivity].
  refine (proj1 (league_names_in_catalog_order iso_date sample_read_csv
                   [file_A; file_B] _ _)).
  vm_compute; reflexivity.
Defined.

(** * Further properties of the methods *)

(** ** Discovery *)

Lemma prefix_spec (sub s : string) :
  String.prefix sub s = true <-> exists post, s = (sub ++ post)%string.
Proof.
  revert sub; induction s as [|c' s IH]; intros [|c sub]; simpl.
  - split; [intros _; exists EmptyString; reflexivity | intros _; reflexivity].
  - split; [discriminate | intros (post & H); discriminate].
  - split; [intros _; eexists; reflexivity | intros _; reflexivity].
  - destruct (Ascii.ascii_dec c c') as [<- | Hne].
    + rewrite IH. split; intros (post & H); exists post; congruence.
    + split; [discriminate | intros (post & H); congruence].
Qed.

Lemma contains_spec (sub s : string) :
  contains sub s = true <-> substring_of sub s.
Proof.
  unfold substring_of. induction s as [|c s IH].
  - cbn [contains]. rewrite orb_false_r, prefix_spec. split.
    + intros (post & H). exists EmptyString, post. exact H.
    + intros (pre & post & H). destruct pre; [eauto | discriminate].
  - cbn [contains]. rewrite orb_true_iff, prefix_spec, IH. split.
    + intros [(post & H) | (pre & post & H)].
      * exists EmptyString, post. exact H.
      * exists (String c pre), post. simpl. congruence.
    + intros (pre & post & H). destruct pre as [|c' pre].
      * left. exists post. exact H.
      * right. simpl in H. injection H as _ H. eauto.
Qed.

(** X1.  [get_currency_file_paths] keeps exactly the paths that have
    "currency" as a substring, in the order [glob] returned them and with
    their multiplicity. *)
Theorem get_currency_file_paths_spec (csv_files : list string) :
  (forall f, In f (get_currency_file_paths csv_files) <->
             In f csv_files /\ substring_of "currency" f) /\
  (forall f, count_occ string_dec (get_currency_file_paths csv_files) f =
             if contains "currency" f then count_occ string_dec csv_files f
             else 0%nat) /\
  (forall l1 l2, csv_files = l1 ++ l2 ->
                 get_currency_file_paths csv_files =
                 get_currency_file_paths l1 ++ get_currency_file_paths l2).
Proof.
  unfold get_currency_file_paths. split; [|split].
  - intros f. rewrite filter_In, contains_spec. reflexivity.
  - intros f. induction csv_files as [|g l IH]; simpl.
    + destruct (contains "currency" f); reflexivity.
    + destruct (contains "currency" g) eqn:Hg; simpl;
        destruct (string_dec g f) as [-> | Hne]; rewrite IH; auto.
      * rewrite Hg; reflexivity.
      * rewrite Hg; reflexivity.
  - intros l1 l2 ->. apply filter_app.
Qed.

Lemma get_file_df_empty (to_datetime : string -> option Z) :
  get_file_df to_datetime [] = Raise KeyError.
Proof. reflexivity. Qed.

(** X2.  When none of the discovered paths contains "currency", the
    constructor raises [KeyError]: the catalog of an empty file list has no
    "Date" column to convert.  No importer with an empty catalog is built. *)
Theorem init_without_currency_file_raises
        (to_datetime : string -> option Z)
        (read_csv : string -> option (list Raw.row)) (csv_files : list string) :
  (forall f, In f csv_files -> ~ substring_of "currency" f) ->
  init to_datetime read_csv csv_files = Raise KeyError.
Proof.
  intros H. unfold init.
  assert (Hnone : get_currency_file_paths csv_files = []).
  { unfold get_currency_file_paths.
    induction csv_files as [|f l IH]; simpl; auto.
    destruct (contains "currency" f) eqn:Hf.
    - apply contains_spec in Hf. exfalso. apply (H f); simpl; auto.
    - apply IH. intros g Hg. apply H; simpl; auto. }
  rewrite Hnone, get_file_df_empty. reflexivity.
Qed.

Lemma init_without_currency_file_raises_witness :
  init iso_date sample_read_csv ["dumps/A.2020-01-01.items.csv"] = Raise KeyError.
Proof.
  apply init_without_currency_file_raises.
  intros f [<- | []] Hsub. apply contains_spec in Hsub. discriminate Hsub.
Defined.

(** ** The outcomes of [get_file_df] *)

Lemma split_league_of (file league date : string) (segs : list string) :
  split "." file = league :: date :: segs ->
  league_of file = league /\ date_segment file = date /\ well_formed_name file.
Proof.
  intros H. unfold league_of, date_segment, well_formed_name. rewrite H.
  simpl. repeat split; lia.
Qed.

Lemma file_dict_Raise (file_list : list string) :
  forall acc e, file_dict file_list acc = Raise e ->
                e = IndexError /\
                exists f, In f file_list /\ ~ well_formed_name f.
Proof.
  induction file_list as [|file rest IH]; simpl; intros acc e H; [discriminate|].
  destruct (split "." file) as [|league [|date segs]] eqn:Hs.
  - injection H as <-. split; auto. exists file. split; auto.
    unfold well_formed_name. rewrite Hs. simpl; lia.
  - injection H as <-. split; auto. exists file. split; auto.
    unfold well_formed_name. rewrite Hs. simpl; lia.
  - destruct (IH _ _ H) as (He & f & Hf & Hbad). split; auto.
    exists f; auto.
Qed.

Lemma file_dict_Ok_well_formed (file_list : list string) :
  forall acc d, file_dict file_list acc = Ok d ->
                forall f, In f file_list -> well_formed_name f.
Proof.
  induction file_list as [|file rest IH]; simpl; intros acc d H f Hf; [contradiction|].
  destruct (split "." file) as [|league [|date segs]] eqn:Hs; try discriminate.
  destruct Hf as [<- | Hf]; [|eauto].
  apply (split_league_of _ _ _ _ Hs).
Qed.

Lemma file_dict_lookup_other (k : string) (file_list : list string) :
  forall acc d, file_dict file_list acc = Ok d ->
                (forall g, In g file_list -> league_of g <> k) ->
                lookup String.eqb k d = lookup String.eqb k acc.
Proof.
  induction file_list as [|file rest IH]; simpl; intros acc d H Hk.
  - injection H as <-. reflexivity.
  - destruct (split "." file) as [|league [|date segs]] eqn:Hs; try discriminate.
    rewrite (IH _ _ H) by auto.
    rewrite lookup_dict_set.
    destruct (String.eqb_spec league k) as [<- | Hne]; auto.
    exfalso. apply (Hk file); auto. apply (split_league_of _ _ _ _ Hs).
Qed.

Lemma file_dict_app (l1 l2 : list string) :
  forall acc, file_dict (l1 ++ l2) acc =
              do acc' <- file_dict l1 acc; file_dict l2 acc'.
Proof.
  induction l1 as [|file l1 IH]; simpl; intros acc; auto.
  destruct (split "." file) as [|league [|date segs]]; auto.
Qed.

Lemma lookup_In {V : Type} (k : string) (v : V) (d : list (string * V)) :
  lookup String.eqb k d = Some v -> In (k, v) d.
Proof.
  induction d as [|[k0 v0] d IH]; simpl; [discriminate|].
  destruct (String.eqb_spec k0 k) as [-> | Hne]; auto.
  intros [= ->]; auto.
Qed.

(** The entries of the dict are the last files of the leagues. *)
Lemma file_dict_entries (file_list : list string)
      (d : list (string * (string * string))) :
  file_dict file_list [] = Ok d ->
  forall k date file,
    In (k, (date, file)) d <->
    last_of_league file_list file /\ k = league_of file /\ date = date_segment file.
Proof.
  intros Hd k date file.
  destruct (file_dict_keys _ _ _ Hd) as (Hnd & _ & _).
  specialize (Hnd (NoDup_nil _)). split.
  - intros Hin. pose proof (lookup_NoDup_In _ _ _ Hnd Hin) as Hlk.
    destruct (file_dict_lookup _ _ _ _ _ _ Hd Hlk)
      as [(l1 & l2 & segs & Hfiles & Hsp & Hl2) | (Habs & _)]; [|discriminate].
    destruct (split_league_of _ _ _ _ Hsp) as (Hl & Hdate & _).
    split; [|auto]. exists l1, l2. rewrite Hl. auto.
  - intros ((l1 & l2 & Hfiles & Hl2) & -> & ->).
    apply lookup_In. rewrite Hfiles, file_dict_app in Hd.
    apply bind_Ok in Hd as (acc1 & _ & Hd). simpl in Hd.
    destruct (split "." file) as [|league [|date segs]] eqn:Hs; try discriminate.
    destruct (split_league_of _ _ _ _ Hs) as (Hl & Hdate & _).
    rewrite (file_dict_lookup_other (league_of file) l2 _ _ Hd Hl2).
    rewrite lookup_dict_set, Hl, Hdate, String.eqb_refl. reflexivity.
Qed.


Lemma mapM_Raise {A B : Type} (f : A -> result B) (l : list A) (e : exn) :
  mapM f l = Raise e -> exists a, In a l /\ f a = Raise e.
Proof.
  induction l as [|a l IH]; simpl; [discriminate|].
  destruct (f a) as [b|e'] eqn:Hfa; simpl.
  - destruct (mapM f l) as [bs|e'] eqn:Hl; simpl; [discriminate|].
    intros [= ->]. destruct (IH eq_refl) as (a' & Ha' & Hf). eauto.
  - intros [= ->]. eauto.
Qed.

Lemma Forall2_In_l {A B : Type} (R : A -> B -> Prop) (l : list A) (l' : list B) (a : A) :
  Forall2 R l l' -> In a l -> exists b, In b l' /\ R a b.
Proof.
  intros H; induction H; simpl; intros Hin; [contradiction|].
  destruct Hin as [<- | Hin]; [eauto|].
  destruct (IHForall2 Hin) as (b & Hb & HR); eauto.
Qed.

Section CatalogOutcome.
Variable to_datetime : string -> option Z.

(** What each outcome of [get_file_df] says about the file list. *)
Lemma get_file_df_outcome (file_list : list string) :
  match get_file_df to_datetime file_list with
  | Ok cat =>
      file_list <> [] /\
      (forall f, In f file_list -> well_formed_name f) /\
      (forall f, last_of_league file_list f ->
                 to_datetime (date_segment f) <> None)
  | Raise IndexError => exists f, In f file_list /\ ~ well_formed_name f
  | Raise KeyError => file_list = []
  | Raise ValueError =>
      file_list <> [] /\
      (forall f, In f file_list -> well_formed_name f) /\
      exists f, last_of_league file_list f /\ to_datetime (date_segment f) = None
  | Raise FileNotFoundError => False
  end.
Proof.
  unfold get_file_df.
  destruct (file_dict file_list []) as [d|e] eqn:Hd; simpl.
  2: { destruct (file_dict_Raise _ _ _ Hd) as (-> & H). exact H. }
  pose proof (file_dict_Ok_well_formed _ _ _ Hd) as Hwf.
  pose proof (file_dict_entries _ _ Hd) as Hent.
  destruct d as [|e0 d'].
  { destruct file_list as [|f l]; [reflexivity|].
    destruct (file_dict_keys _ _ _ Hd) as (_ & _ & Hk).
    destruct (Hk f (or_introl eq_refl)). }
  assert (Hne : file_list <> []).
  { intros ->. simpl in Hd. discriminate. }
  set (d := e0 :: d') in *.
  destruct (mapM _ d) as [dated|e] eqn:Hm; simpl.
  - split; [exact Hne|]. split; [exact Hwf|].
    intros f Hlast. apply mapM_Ok in Hm.
    assert (Hin : In (league_of f, (date_segment f, f)) d)
      by (apply Hent; auto).
    apply (Forall2_In_l _ _ _ _ Hm) in Hin as (r & _ & Hr).
    simpl in Hr. destruct (to_datetime (date_segment f)); congruence.
  - apply mapM_Raise in Hm as ([k [date file]] & Hin & Hf). simpl in Hf.
    destruct (to_datetime date) eqn:Hdate; [discriminate|].
    injection Hf as <-.
    split; [exact Hne|]. split; [exact Hwf|].
    apply Hent in Hin as (Hlast & _ & ->). eauto.
Qed.

(** X3.  [get_file_df] returns a catalog exactly when the file list is not
    empty, every name has a league and a date segment, and the date segment
    of the last file of every league converts to a date.  A date that does
    not convert is harmless in a file that a later file of the same league
    replaces. *)
Theorem get_file_df_succeeds_iff (file_list : list string) :
  (exists cat, get_file_df to_datetime file_list = Ok cat) <->
  file_list <> [] /\
  (forall f, In f file_list -> well_formed_name f) /\
  (forall f, last_of_league file_list f -> to_datetime (date_segment f) <> None).
Proof.
  pose proof (get_file_df_outcome file_list) as H. split.
  - intros (cat & Hcat). rewrite Hcat in H. exact H.
  - intros (Hne & Hwf & Hdates).
    destruct (get_file_df to_datetime file_list) as [cat|[]]; [eauto| | | |].
    + destruct H as (f & Hf & Hbad). exfalso; auto.
    + contradiction.
    + destruct H as (_ & _ & f & Hlast & Hnone). exfalso. apply (Hdates f); auto.
    + contradiction.
Qed.

(** X4.  The exceptions of [get_file_df]: [IndexError] exactly when some
    name has no date segment; otherwise [KeyError] exactly when the list is
    empty; otherwise [ValueError] exactly when the date segment of the last
    file of some league does not convert.  It raises nothing else. *)
Theorem get_file_df_exceptions (file_list : list string) :
  (get_file_df to_datetime file_list = Raise IndexError <->
   exists f, In f file_list /\ ~ well_formed_name f) /\
  (get_file_df to_datetime file_list = Raise KeyError <-> file_list = []) /\
  (get_file_df to_datetime file_list = Raise ValueError <->
   (forall f, In f file_list -> well_formed_name f) /\
   exists f, last_of_league file_list f /\ to_datetime (date_segment f) = None) /\
  get_file_df to_datetime file_list <> Raise FileNotFoundError.
Proof.
  pose proof (get_file_df_outcome file_list) as H.
  split; [|split; [|split]].
  - split.
    + intros He. rewrite He in H. exact H.
    + intros (f & Hf & Hbad).
      destruct (get_file_df to_datetime file_list) as [cat|[]]; auto.
      * destruct H as (_ & Hwf & _). exfalso; auto.
      * subst. contradiction.
      * destruct H as (_ & Hwf & _). exfalso; auto.
      * contradiction.
  - split.
    + intros He. rewrite He in H. exact H.
    + intros ->. reflexivity.
  - split.
    + intros He. rewrite He in H. destruct H as (_ & Hwf & Hbad). auto.
    + intros (Hwf & f & Hlast & Hnone).
      destruct (get_file_df to_datetime file_list) as [cat|[]]; auto.
      * destruct H as (_ & _ & Hdates). exfalso. apply (Hdates f); auto.
      * destruct H as (g & Hg & Hbad). exfalso; auto.
      * subst. destruct Hlast as (l1 & l2 & Habs & _).
        destruct l1; discriminate.
      * contradiction.
  - intros He. rewrite He in H. exact H.
Qed.

End CatalogOutcome.



Lemma get_file_df_succeeds_iff_witness :
  exists cat, get_file_df iso_date [file_A; file_B] = Ok cat.
Proof.
  apply get_file_df_succeeds_iff. split; [discriminate|]. split.
  - intros f [<- | [<- | []]]; vm_compute; lia.
  - intros f (l1 & l2 & Hfiles & _).
    assert (Hf : In f [file_A; file_B])
      by (rewrite Hfiles; apply in_or_app; right; simpl; auto).
    destruct Hf as [<- | [<- | []]]; discriminate.
Defined.

(** A bad date in a file that a later file of the same league replaces. *)
Lemma get_file_df_exceptions_witness :
  get_file_df iso_date ["A.someday.currency.csv"; file_A2]
  = Ok [Catalog.mk "A" 18293 file_A2] /\
  get_file_df iso_date [file_A2; "A.someday.currency.csv"] = Raise ValueError.
Proof.
  split; [reflexivity|].
  apply (get_file_df_exceptions iso_date [file_A2; "A.someday.currency.csv"]).
  split.
  - intros f [<- | [<- | []]]; vm_compute; lia.
  - exists "A.someday.currency.csv". split; [|reflexivity].
    exists [file_A2], []. split; [reflexivity | intros g []].
Defined.

(** ** The latest league of a catalog *)

Lemma catalog_head_latest (r : Catalog.row) (rest : list Catalog.row) :
  Sorted (fun r1 r2 => Catalog.Date r2 <= Catalog.Date r1) (r :: rest) ->
  forall r', In r' rest -> Catalog.Date r' <= Catalog.Date r.
Proof.
  intros Hs. apply Sorted_StronglySorted in Hs.
  - apply StronglySorted_inv in Hs as [_ Hall].
    rewrite Forall_forall in Hall. exact Hall.
  - intros a b c Hab Hbc. lia.
Qed.


Section LatestOfCatalog.
Variable to_datetime : string -> option Z.
Variable read_csv : string -> option (list Raw.row).

End LatestOfCatalog.


(** ** The canonical currency list *)

Lemma unique_In (s : string) (l : list string) : In s (unique l) <-> In s l.
Proof.
  induction l as [|a l IH]; simpl; [tauto|].
  rewrite filter_In, IH, negb_true_iff.
  destruct (String.eqb_spec s a) as [-> | Hne]; intuition congruence.
Qed.

Lemma unique_NoDup (l : list string) : NoDup (unique l).
Proof.
  induction l as [|a l IH]; simpl; constructor.
  - rewrite filter_In, String.eqb_refl. intros [_ H]; discriminate.
  - apply NoDup_filter, IH.
Qed.

Lemma string_leb_total (a b : string) : String.leb a b = false -> String.leb b a = true.
Proof.
  unfold String.leb. rewrite (String.compare_antisym a b).
  destruct (String.compare b a); simpl; congruence.
Qed.

(** X6.  The canonical currency list, when [get_latest_currency_list]
    returns one, holds the currencies of the rows extracted from the latest
    league, each of them once, in ascending order. *)
Theorem get_latest_currency_list_spec
        (to_datetime : string -> option Z)
        (read_csv : string -> option (list Raw.row))
        (df : list Catalog.row) (latest : list string) :
  get_latest_currency_list to_datetime read_csv df = Ok latest ->
  exists d,
    get_latest_league_data to_datetime read_csv df = Ok d /\
    (forall c, In c latest <-> exists row, In row d /\ Extracted.Currency (snd row) = c) /\
    NoDup latest /\
    Sorted (fun a b => String.leb a b = true) latest.
Proof.
  unfold get_latest_currency_list. intros H.
  apply bind_Ok in H as (d & Hd & H). injection H as <-.
  exists d. split; [exact Hd|].
  pose proof (sort_by_perm String.leb (get_currency_list d)) as Hperm.
  split; [|split].
  - intros c. split.
    + intros Hc. apply (Permutation_in _ (Permutation_sym Hperm)) in Hc.
      apply unique_In, in_map_iff in Hc as (row & Hrow & Hin). eauto.
    + intros (row & Hin & <-). apply (Permutation_in _ Hperm).
      apply unique_In, in_map_iff. eauto.
  - eapply Permutation_NoDup; [exact Hperm | apply unique_NoDup].
  - apply sort_by_sorted. exact string_leb_total.
Qed.

Lemma get_latest_currency_list_spec_witness :
  get_latest_currency_list iso_date sample_read_csv sample_catalog
  = Ok ["Orb1"; "Orb2"] /\
  NoDup ["Orb1"; "Orb2"].
Proof.
  assert (H : get_latest_currency_list iso_date sample_read_csv sample_catalog
              = Ok ["Orb1"; "Orb2"]) by reflexivity.
  split; [exact H|].
  destruct (get_latest_currency_list_spec _ _ _ _ H) as (d & _ & _ & Hnd & _).
  exact Hnd.
Defined.

(** ** The outcomes of [extract_df] *)

Lemma combine_seq_nth {A : Type} (rows : list A) :
  forall s i r,
    In (i, r) (combine (seq s (List.length rows)) rows) <->
    (s <= i)%nat /\ nth_error rows (i - s) = Some r.
Proof.
  induction rows as [|a rows IH]; intros s i r; simpl.
  - split; [contradiction|]. intros [_ H]. destruct (i - s)%nat; discriminate.
  - rewrite IH. split.
    + intros [[= <- <-] | [Hle Hn]].
      * rewrite Nat.sub_diag. simpl. auto.
      * split; [lia|]. replace (i - s)%nat with (S (i - S s)) by lia. exact Hn.
    + intros [Hle Hn]. destruct (i - s)%nat as [|j] eqn:Hj.
      * left. simpl in Hn. injection Hn as ->. f_equal. lia.
      * right. split; [lia|]. simpl in Hn.
        replace (i - S s)%nat with j by lia. exact Hn.
Qed.

Lemma filter_combine_seq_sorted {A : Type} (p : nat * A -> bool) (rows : list A) :
  forall s, StronglySorted lt (map fst (filter p (combine (seq s (List.length rows)) rows))).
Proof.
  induction rows as [|a rows IH]; intros s; simpl; [constructor|].
  destruct (p (s, a)); simpl; [|apply IH].
  constructor; [apply IH|].
  apply Forall_forall. intros i Hi. apply in_map_iff in Hi as ([j r] & <- & Hin).
  apply filter_In in Hin as [Hin _]. apply combine_seq_label in Hin. simpl in *. lia.
Qed.

Section ExtractionOutcome.
Variable to_datetime : string -> option Z.
Variable read_csv : string -> option (list Raw.row).

Let kept (rows : list Raw.row) : list (nat * Raw.row) :=
  filter (fun r => String.eqb (Raw.Pay (snd r)) base_currency)
         (combine (seq 0 (List.length rows)) rows).

(** A successful extraction, row by row, labels included. *)
Lemma extract_df_Ok_labelled (file_path : string) (d : labelled) :
  extract_df to_datetime read_csv file_path = Ok d ->
  exists rows a,
    read_csv file_path = Some rows /\
    Forall2 (fun p ex =>
               fst ex = fst p /\
               exists t, to_datetime (Raw.Date (snd p)) = Some t /\
                         snd ex = Extracted.mk (Raw.League (snd p)) (t - a)
                                               (Raw.Get (snd p)) (Raw.Value (snd p)))
            (kept rows) d.
Proof.
  unfold extract_df. destruct (read_csv file_path) as [rows|]; [|discriminate].
  fold (kept rows). intros H.
  apply bind_Ok in H as (conv & Hconv & H).
  destruct (lookup Nat.eqb 0%nat conv) as [x0|]; [|discriminate].
  injection H as <-. exists rows, (Extracted.Date x0). split; [reflexivity|].
  apply Forall2_map_r. apply mapM_Ok in Hconv.
  eapply Forall2_impl; [|exact Hconv].
  intros p q Hpq. simpl in Hpq.
  destruct (to_datetime (Raw.Date (snd p))) as [t|]; [|discriminate].
  injection Hpq as <-. simpl. eauto.
Qed.

(** X7.  A successful extraction keeps exactly the rows priced in the base
    currency, under the row labels they have in the file (their positions,
    not renumbered), in file order, and carries over their league, their
    [Get] currency and their value. *)
Theorem extract_df_rows (file_path : string) (rows : list Raw.row) (d : labelled) :
  read_csv file_path = Some rows ->
  extract_df to_datetime read_csv file_path = Ok d ->
  (forall i x, In (i, x) d ->
               exists raw, nth_error rows i = Some raw /\
                           Raw.Pay raw = base_currency /\
                           Extracted.League x = Raw.League raw /\
                           Extracted.Currency x = Raw.Get raw /\
                           Extracted.Value x = Raw.Value raw) /\
  (forall i raw, nth_error rows i = Some raw -> Raw.Pay raw = base_currency ->
                 exists x, In (i, x) d) /\
  StronglySorted lt (map fst d) /\
  List.length d =
  List.length (filter (fun r => String.eqb (Raw.Pay r) base_currency) rows).
Proof.
  intros Hread H.
  apply extract_df_Ok_labelled in H as (rows' & a & Hread' & Hall).
  rewrite Hread in Hread'. injection Hread' as <-.
  assert (Hlab : map fst d = map fst (kept rows)).
  { symmetry. eapply Forall2_map_eq; [|exact Hall].
    intros p ex (Hf & _). auto. }
  split; [|split; [|split]].
  - intros i x Hin.
    destruct (Forall2_In_r _ _ _ _ Hall Hin) as ([j raw] & Hk & Hj & t & _ & Hx).
    simpl in *. subst j x. unfold kept in Hk.
    apply filter_In in Hk as [Hk Hpay]. simpl in Hpay. apply String.eqb_eq in Hpay.
    apply combine_seq_nth in Hk as [_ Hn]. rewrite Nat.sub_0_r in Hn.
    exists raw. simpl. auto.
  - intros i raw Hn Hpay.
    assert (Hk : In (i, raw) (kept rows)).
    { unfold kept. apply filter_In. split.
      - apply combine_seq_nth. rewrite Nat.sub_0_r. split; [lia | exact Hn].
      - simpl. now apply String.eqb_eq. }
    destruct (Forall2_In_l _ _ _ _ Hall Hk) as ([j x] & Hin & Hj & _).
    simpl in Hj. subst j. eauto.
  - rewrite Hlab. apply filter_combine_seq_sorted.
  - rewrite <- (Forall2_length Hall). unfold kept.
    rewrite <- (filter_combine_snd
                  (fun r => String.eqb (Raw.Pay r) base_currency) rows 0).
    rewrite length_map. reflexivity.
Qed.

(** What each outcome of [extract_df] says about the dump. *)
Lemma extract_df_outcome (file_path : string) :
  match extract_df to_datetime read_csv file_path with
  | Ok d =>
      exists r0 rest,
        read_csv file_path = Some (r0 :: rest) /\
        Raw.Pay r0 = base_currency /\
        forall r, In r (r0 :: rest) -> Raw.Pay r = base_currency ->
                  to_datetime (Raw.Date r) <> None
  | Raise FileNotFoundError => read_csv file_path = None
  | Raise ValueError =>
      exists rows r,
        read_csv file_path = Some rows /\ In r rows /\
        Raw.Pay r = base_currency /\ to_datetime (Raw.Date r) = None
  | Raise KeyError =>
      exists rows,
        read_csv file_path = Some rows /\
        (forall r, nth_error rows 0 = Some r -> Raw.Pay r <> base_currency) /\
        forall r, In r rows -> Raw.Pay r = base_currency ->
                  to_datetime (Raw.Date r) <> None
  | Raise IndexError => False
  end.
Proof.
  destruct (extract_df to_datetime read_csv file_path) as [d|e] eqn:H.
  - pose proof (extract_df_Ok to_datetime read_csv _ _ H)
      as (r0 & rest & a & Hread & Hpay & _ & Hall).
    exists r0, rest. split; [exact Hread|]. split; [exact Hpay|].
    intros r Hr Hb.
    assert (Hin : In r (filter (fun r => String.eqb (Raw.Pay r) base_currency)
                               (r0 :: rest)))
      by (apply filter_In; split; auto; now apply String.eqb_eq).
    destruct (Forall2_In_l _ _ _ _ Hall Hin) as (ex & _ & t & Ht & _).
    congruence.
  - unfold extract_df in H.
    destruct (read_csv file_path) as [rows|] eqn:Hread;
      [|injection H as <-; reflexivity].
    fold (kept rows) in H.
    destruct (mapM _ (kept rows)) as [conv|e'] eqn:Hconv; simpl in H.
    + destruct (lookup Nat.eqb 0%nat conv) as [x0|] eqn:Hlk; [discriminate|].
      injection H as <-. exists rows. split; [reflexivity|].
      apply mapM_Ok in Hconv. split.
      * intros r Hn Hb.
        assert (Hk : In (0%nat, r) (kept rows)).
        { unfold kept. apply filter_In. split.
          - apply combine_seq_nth. simpl. auto.
          - simpl. now apply String.eqb_eq. }
        destruct (Forall2_In_l _ _ _ _ Hconv Hk) as ([j x] & Hin & Hx).
        simpl in Hx. destruct (to_datetime (Raw.Date r)); [|discriminate].
        injection Hx as <- _.
        clear - Hin Hlk. induction conv as [|[i y] conv IH]; [contradiction|].
        simpl in Hlk. destruct i; [discriminate|]. simpl in Hlk.
        destruct Hin as [[=] | Hin]; auto.
      * intros r Hr Hb.
        destruct (In_nth_error _ _ Hr) as (i & Hi).
        assert (Hk : In (i, r) (kept rows)).
        { unfold kept. apply filter_In. split.
          - apply combine_seq_nth. rewrite Nat.sub_0_r. split; [lia | exact Hi].
          - simpl. now apply String.eqb_eq. }
        destruct (Forall2_In_l _ _ _ _ Hconv Hk) as (x & _ & Hx).
        simpl in Hx. destruct (to_datetime (Raw.Date r)); [congruence | discriminate].
    + injection H as <-.
      apply mapM_Raise in Hconv as ([i r] & Hk & Hf). simpl in Hf.
      destruct (to_datetime (Raw.Date r)) eqn:Hd; [discriminate|].
      injection Hf as <-. unfold kept in Hk.
      apply filter_In in Hk as [Hk Hpay]. simpl in Hpay. apply String.eqb_eq in Hpay.
      exists rows, r. repeat split; auto.
      eapply in_combine_r; exact Hk.
Qed.

(** X8.  [extract_df] returns a table exactly when the dump can be read,
    its first row is priced in the base currency, and the date of every row
    priced in the base currency converts. *)
Theorem extract_df_succeeds_iff (file_path : string) :
  (exists d, extract_df to_datetime read_csv file_path = Ok d) <->
  exists r0 rest,
    read_csv file_path = Some (r0 :: rest) /\
    Raw.Pay r0 = base_currency /\
    forall r, In r (r0 :: rest) -> Raw.Pay r = base_currency ->
              to_datetime (Raw.Date r) <> None.
Proof.
  pose proof (extract_df_outcome file_path) as H. split.
  - intros (d & Hd). rewrite Hd in H. exact H.
  - intros (r0 & rest & Hread & Hpay & Hdates).
    destruct (extract_df to_datetime read_csv file_path) as [d|[]]; [eauto| | | |].
    + contradiction.
    + destruct H as (rows & Hread' & Hfirst & _).
      rewrite Hread in Hread'. injection Hread' as <-.
      exfalso. apply (Hfirst r0); auto.
    + destruct H as (rows & r & Hread' & Hin & Hb & Hnone).
      rewrite Hread in Hread'. injection Hread' as <-.
      exfalso. apply (Hdates r); auto.
    + congruence.
Qed.

(** X9.  The exceptions of [extract_df] on a dump that [read_csv] has read
    into rows: [ValueError] exactly when the date of some row priced in the
    base currency does not convert, wherever that row stands; [KeyError]
    exactly when all those dates convert and the dump is empty or its first
    row is not priced in the base currency; never [IndexError] nor
    [FileNotFoundError].  The dates of rows priced in another currency are
    never looked at. *)
Theorem extract_df_exceptions (file_path : string) (rows : list Raw.row) :
  read_csv file_path = Some rows ->
  (extract_df to_datetime read_csv file_path = Raise ValueError <->
   exists r,
     In r rows /\
     Raw.Pay r = base_currency /\ to_datetime (Raw.Date r) = None) /\
  (extract_df to_datetime read_csv file_path = Raise KeyError <->
   (forall r, nth_error rows 0 = Some r -> Raw.Pay r <> base_currency) /\
   forall r, In r rows -> Raw.Pay r = base_currency ->
             to_datetime (Raw.Date r) <> None) /\
  extract_df to_datetime read_csv file_path <> Raise IndexError /\
  extract_df to_datetime read_csv file_path <> Raise FileNotFoundError.
Proof.
  intros Hread.
  pose proof (extract_df_outcome file_path) as H.
  split; [|split; [|split]].
  - split.
    + intros He. rewrite He in H.
      destruct H as (rows' & r & Hread' & Hin & Hb & Hnone).
      rewrite Hread in Hread'. injection Hread' as <-.
      exists r. auto.
    + intros (r & Hin & Hb & Hnone).
      destruct (extract_df to_datetime read_csv file_path) as [d|[]]; auto.
      * destruct H as (r0 & rest & Hread' & _ & Hdates).
        rewrite Hread in Hread'. injection Hread' as ->.
        exfalso. apply (Hdates r); auto.
      * contradiction.
      * destruct H as (rows' & Hread' & _ & Hdates).
        rewrite Hread in Hread'. injection Hread' as <-.
        exfalso. apply (Hdates r); auto.
      * congruence.
  - split.
    + intros He. rewrite He in H.
      destruct H as (rows' & Hread' & Hfirst & Hdates).
      rewrite Hread in Hread'. injection Hread' as <-.
      split; assumption.
    + intros (Hfirst & Hdates).
      destruct (extract_df to_datetime read_csv file_path) as [d|[]]; auto.
      * destruct H as (r0 & rest & Hread' & Hpay & _).
        rewrite Hread in Hread'. injection Hread' as ->.
        exfalso. apply (Hfirst r0); auto.
      * contradiction.
      * destruct H as (rows' & r & Hread' & Hin & Hb & Hnone).
        rewrite Hread in Hread'. injection Hread' as <-.
        exfalso. apply (Hdates r); auto.
      * congruence.
  - intros He. rewrite He in H. exact H.
  - intros He. rewrite He in H. congruence.
Qed.
End ExtractionOutcome.

(** The rows of league A behind two rows priced in another currency:
    the labels of the extracted rows are 0, 3. *)
Lemma extract_df_rows_witness :
  let rows := [chaos "A" "2020-01-01" "Orb1" 10%Q;
               Raw.mk "A" "2020-01-01" "Chaos Orb" "Exalted Orb" (1 # 100)%Q;
               Raw.mk "A" "no date" "Chaos Orb" "Exalted Orb" (1 # 90)%Q;
               chaos "A" "2020-01-02" "Orb1" 12%Q] in
  let d := [(0%nat, Extracted.mk "A" 0 "Orb1" 10%Q);
            (3%nat, Extracted.mk "A" 1 "Orb1" 12%Q)] in
  extract_df iso_date (fun _ => Some rows) file_A = Ok d /\
  StronglySorted lt (map fst d) /\
  List.length d = 2%nat.
Proof.
  intros rows d.
  assert (H : extract_df iso_date (fun _ => Some rows) file_A = Ok d) by reflexivity.
  split; [exact H|].
  destruct (extract_df_rows iso_date (fun _ => Some rows) file_A rows d eq_refl H)
    as (_ & _ & Hs & Hl).
  split; [exact Hs | exact Hl].
Defined.

(** ** Extraction depends on date differences only *)

Section Translation.
Variable to_datetime : string -> option Z.
Variable read_csv : string -> option (list Raw.row).
Variable c : Z.

(** The same conversion with another origin of the time line. *)
Let shifted (s : string) : option Z :=
  match to_datetime s with
  | Some t => Some (t + c)
  | None => None
  end.

Let shift_row (r : nat * Extracted.row) : nat * Extracted.row :=
  (fst r, Extracted.mk (Extracted.League (snd r)) (Extracted.Date (snd r) + c)
                       (Extracted.Currency (snd r)) (Extracted.Value (snd r))).

Let convert (td : string -> option Z) (r : nat * Raw.row)
  : result (nat * Extracted.row) :=
  match td (Raw.Date (snd r)) with
  | Some d =>
      Ok (fst r,
          Extracted.mk (Raw.League (snd r)) d (Raw.Get (snd r)) (Raw.Value (snd r)))
  | None => Raise ValueError
  end.

Lemma mapM_convert_shifted (l : list (nat * Raw.row)) :
  mapM (convert shifted) l =
  match mapM (convert to_datetime) l with
  | Ok conv => Ok (map shift_row conv)
  | Raise e => Raise e
  end.
Proof.
  induction l as [|r l IH]; [reflexivity|].
  cbn [mapM]. rewrite IH.
  destruct (mapM (convert to_datetime) l) as [conv|e];
    unfold convert, shifted;
    destruct (to_datetime (Raw.Date (snd r))) as [t|]; reflexivity.
Qed.

Lemma lookup_shift_row (i : nat) (l : list (nat * Extracted.row)) :
  lookup Nat.eqb i (map shift_row l) =
  match lookup Nat.eqb i l with
  | Some x => Some (snd (shift_row (i, x)))
  | None => None
  end.
Proof.
  induction l as [|[j y] l IH]; simpl; [reflexivity|].
  destruct (Nat.eqb j i); auto.
Qed.

(** X10.  Extraction depends on the dates through their differences only:
    a conversion that places every date [c] units later on the time line
    gives the same result, table or exception. *)
Theorem extract_df_translation_invariant (file_path : string) :
  extract_df shifted read_csv file_path = extract_df to_datetime read_csv file_path.
Proof.
  unfold extract_df. destruct (read_csv file_path) as [rows|]; [|reflexivity].
  fold (convert shifted). fold (convert to_datetime).
  rewrite mapM_convert_shifted.
  destruct (mapM (convert to_datetime) _) as [conv|e]; simpl; [|reflexivity].
  rewrite lookup_shift_row.
  destruct (lookup Nat.eqb 0%nat conv) as [x0|]; [|reflexivity].
  f_equal. rewrite map_map. apply map_ext. intros [i x]. simpl.
  f_equal. f_equal. lia.
Qed.
End Translation.

(** ** The axes and the cells of a grouped table *)

Section SortUniqSorted.
Context {A : Type}.
Variable cmp : A -> A -> comparison.
Hypothesis cmp_eq : forall x y, cmp x y = Eq -> x = y.
Hypothesis cmp_antisym : forall x y, cmp y x = CompOpp (cmp x y).
Hypothesis cmp_trans : forall x y z, cmp x y = Lt -> cmp y z = Lt -> cmp x z = Lt.

Lemma insert_uniq_sorted (x : A) (l : list A) :
  StronglySorted (fun a b => cmp a b = Lt) l ->
  StronglySorted (fun a b => cmp a b = Lt) (insert_uniq cmp x l).
Proof.
  induction l as [|y l IH]; simpl; intros Hs.
  - constructor; constructor.
  - apply StronglySorted_inv in Hs as [Hs Hall].
    destruct (cmp x y) eqn:Hxy.
    + constructor; auto.
    + constructor; [constructor; auto|].
      constructor; auto.
      rewrite Forall_forall in *. intros z Hz. eauto.
    + constructor; auto.
      rewrite Forall_forall in *. intros z Hz.
      apply (insert_uniq_In cmp cmp_eq) in Hz as [-> | Hz]; auto.
      rewrite (cmp_antisym x y), Hxy. reflexivity.
Qed.

Lemma sort_uniq_sorted (l : list A) :
  StronglySorted (fun a b => cmp a b = Lt) (sort_uniq cmp l).
Proof.
  induction l as [|x l IH]; simpl; [constructor|].
  now apply insert_uniq_sorted.
Qed.
End SortUniqSorted.

Lemma string_compare_trans (a b c : string) :
  String.compare a b = Lt -> String.compare b c = Lt -> String.compare a c = Lt.
Proof.
  intros Hab Hbc.
  apply OrderedTypeEx.String_as_OT.cmp_lt.
  apply OrderedTypeEx.String_as_OT.cmp_lt in Hab, Hbc.
  eapply OrderedTypeEx.String_as_OT.lt_trans; eauto.
Qed.

Lemma string_compare_refl (a : string) : String.compare a a = Eq.
Proof.
  pose proof (String.compare_antisym a a) as H.
  destruct (String.compare a a); simpl in H; congruence.
Qed.

Lemma key_compare_trans (k1 k2 k3 : colkey) :
  key_lt k1 k2 -> key_lt k2 k3 -> key_lt k1 k3.
Proof.
  destruct k1 as [c1 l1], k2 as [c2 l2], k3 as [c3 l3].
  unfold key_lt, key_compare; simpl.
  destruct (String.compare c1 c2) eqn:H12; try discriminate;
    destruct (String.compare c2 c3) eqn:H23; try discriminate; intros Ha Hb.
  - apply String.compare_eq_iff in H12, H23. subst.
    rewrite string_compare_refl.
    eapply string_compare_trans; eauto.
  - apply String.compare_eq_iff in H12. subst. rewrite H23. reflexivity.
  - apply String.compare_eq_iff in H23. subst. rewrite H12. reflexivity.
  - rewrite (string_compare_trans _ _ _ H12 H23). reflexivity.
Qed.

Lemma Z_compare_trans (x y z : Z) :
  Z.compare x y = Lt -> Z.compare y z = Lt -> Z.compare x z = Lt.
Proof. rewrite !Z.compare_lt_iff. lia. Qed.

Lemma lookup_map_key_None {K V : Type} (eqb : K -> K -> bool) (f : K -> V)
      (k : K) (l : list K) :
  (forall a b, eqb a b = true <-> a = b) ->
  ~ In k l -> lookup eqb k (map (fun a => (a, f a)) l) = None.
Proof.
  intros Heq. induction l as [|a l IH]; simpl; auto.
  intros Hn. destruct (eqb a k) eqn:E.
  - apply Heq in E. subst. exfalso; auto.
  - apply IH. auto.
Qed.

Lemma lookup_map_key_Some {K V : Type} (eqb : K -> K -> bool) (f : K -> V)
      (k : K) (v : V) (l : list K) :
  (forall a b, eqb a b = true <-> a = b) ->
  lookup eqb k (map (fun a => (a, f a)) l) = Some v -> v = f k.
Proof.
  intros Heq. induction l as [|a l IH]; simpl; [discriminate|].
  destruct (eqb a k) eqn:E; auto.
  apply Heq in E. subst. congruence.
Qed.

Lemma lookup_combine_map_None (f : Z -> cell) (t : Z) (l : list Z) :
  ~ In t l -> lookup Z.eqb t (combine l (map f l)) = None.
Proof.
  induction l as [|a l IH]; simpl; auto.
  intros Hn. destruct (Z.eqb_spec a t) as [-> | Hne]; [exfalso; auto|].
  apply IH; auto.
Qed.

Lemma group_df_index (df : labelled) (t : Z) :
  In t (index (group_df df)) <-> exists r, In r df /\ Extracted.Date (snd r) = t.
Proof.
  unfold group_df, unstack_T, groupby_sum. cbn [index].
  rewrite (sort_uniq_In Z.compare Z.compare_eq), map_map. cbn [fst].
  rewrite in_map_iff. split.
  - intros (g & <- & Hg).
    rewrite (sort_uniq_In group_compare group_compare_eq) in Hg.
    rewrite map_map in Hg. apply in_map_iff in Hg as (r & <- & Hr). eauto.
  - intros (r & Hr & <-). exists (key3 (snd r)). split; [reflexivity|].
    apply (sort_uniq_In group_compare group_compare_eq).
    rewrite map_map. apply (in_map (fun x => key3 (snd x))). exact Hr.
Qed.

Lemma group_df_columns (df : labelled) (k : colkey) :
  In k (columns (group_df df)) <->
  exists r, In r df /\ (Extracted.Currency (snd r), Extracted.League (snd r)) = k.
Proof.
  unfold group_df. rewrite unstack_T_columns.
  rewrite (sort_uniq_In key_compare key_compare_eq).
  unfold groupby_sum. rewrite map_map. cbn [fst].
  rewrite in_map_iff. split.
  - intros (g & <- & Hg).
    rewrite (sort_uniq_In group_compare group_compare_eq) in Hg.
    rewrite map_map in Hg. apply in_map_iff in Hg as (r & <- & Hr). eauto.
  - intros (r & Hr & <-). exists (key3 (snd r)). split; [reflexivity|].
    apply (sort_uniq_In group_compare group_compare_eq).
    rewrite map_map. apply (in_map (fun x => key3 (snd x))). exact Hr.
Qed.

Lemma group_df_rectangular (df : labelled) : rectangular (group_df df).
Proof.
  unfold rectangular, group_df, unstack_T. cbn [data index].
  apply Forall_forall. intros c Hc. apply in_map_iff in Hc as (k & <- & _).
  cbn [snd]. apply length_map.
Qed.

(** X11.  The axes of a grouped table: the row labels are the elapsed times
    of the rows, the column keys their (currency, league) pairs, both in
    strictly ascending order, each value once; every column has one cell per
    row. *)
Theorem group_df_axes (df : labelled) :
  (forall t, In t (index (group_df df)) <->
             exists r, In r df /\ Extracted.Date (snd r) = t) /\
  StronglySorted Z.lt (index (group_df df)) /\
  (forall k, In k (columns (group_df df)) <->
             exists r, In r df /\
                       (Extracted.Currency (snd r), Extracted.League (snd r)) = k) /\
  StronglySorted key_lt (columns (group_df df)) /\
  rectangular (group_df df).
Proof.
  split; [apply group_df_index|]. split; [|split; [apply group_df_columns|split]].
  - unfold group_df, unstack_T. cbn [index].
    apply (sort_uniq_sorted Z.compare Z.compare_eq).
    + intros x y. apply Z.compare_antisym.
    + exact Z_compare_trans.
  - unfold group_df. rewrite unstack_T_columns.
    apply (sort_uniq_sorted key_compare key_compare_eq).
    + intros x y. apply key_compare_antisym.
    + exact key_compare_trans.
  - apply group_df_rectangular.
Qed.

(** The cell of a row label and a column key that the table has. *)
Lemma at_group_df_cases (df : labelled) (t : Z) (k : colkey) :
  at_ (group_df df) t k =
  if in_dec Z.eq_dec t (index (group_df df)) then
    if existsb (key_eqb k) (columns (group_df df)) then
      if existsb (fun r => group_eqb (key3 r) (t, k)) (map snd df)
      then Some (Val (sum (map Extracted.Value
                               (filter (fun r => group_eqb (key3 r) (t, k))
                                       (map snd df)))))
      else Some NaN
    else None
  else None.
Proof.
  destruct (existsb (fun r => group_eqb (key3 r) (t, k)) (map snd df)) eqn:Hrow.
  - apply existsb_exists in Hrow as (r & Hr & Hk). apply group_eqb_eq in Hk.
    assert (Hin : In (t, k) (map key3 (map snd df)))
      by (rewrite <- Hk; apply in_map; exact Hr).
    rewrite (at_group_df df t k Hin).
    apply in_map_iff in Hr as (row & <- & Hrow).
    destruct (in_dec Z.eq_dec t (index (group_df df))) as [_ | Hn].
    2: { exfalso. apply Hn, group_df_index. exists row. split; auto.
         now inversion Hk. }
    destruct (existsb (key_eqb k) (columns (group_df df))) eqn:Hc; auto.
    assert (Hcol : In k (columns (group_df df))).
    { apply group_df_columns. exists row. split; auto. now inversion Hk. }
    apply existsb_key_In in Hcol. congruence.
  - assert (Hno : ~ In (t, k) (sort_uniq group_compare (map key3 (map snd df)))).
    { intros Hin. rewrite (sort_uniq_In group_compare group_compare_eq) in Hin.
      apply in_map_iff in Hin as (r & Hk & Hr).
      assert (existsb (fun r => group_eqb (key3 r) (t, k)) (map snd df) = true).
      { apply existsb_exists. exists r. split; auto. now apply group_eqb_eq. }
      congruence. }
    destruct (in_dec Z.eq_dec t (index (group_df df))) as [Ht | Ht];
      destruct (existsb (key_eqb k) (columns (group_df df))) eqn:Hc;
      unfold at_, group_df, unstack_T, groupby_sum in *; cbn [data index] in *.
    + apply existsb_key_In in Hc. unfold columns in Hc. cbn [data] in Hc.
      rewrite map_map in Hc. cbn [fst] in Hc. rewrite map_id in Hc.
      rewrite (lookup_map_key key_eqb _ k _ key_eqb_eq Hc).
      rewrite (lookup_combine_map _ t _ Ht).
      rewrite (lookup_map_key_None group_eqb _ (t, k) _ group_eqb_eq Hno).
      reflexivity.
    + rewrite lookup_None_notin; [reflexivity|]. exact Hc.
    + destruct (lookup key_eqb k _) as [cells|] eqn:Hl; [|reflexivity].
      apply (lookup_map_key_Some key_eqb _ k cells _ key_eqb_eq) in Hl.
      subst cells. apply lookup_combine_map_None. exact Ht.
    + rewrite lookup_None_notin; [reflexivity|]. exact Hc.
Qed.

(** X12.  The cells of a grouped table.  A cell is missing exactly when the
    table has the row label and the column key but no row of the extraction
    carries both; a cell with a value comes from at least one row; no column
    and no row of the table is missing throughout. *)
Theorem group_df_cells (df : labelled) :
  (forall t k,
      at_ (group_df df) t k = Some NaN <->
      In t (index (group_df df)) /\ In k (columns (group_df df)) /\
      ~ exists r, In r df /\ key3 (snd r) = (t, k)) /\
  (forall t k q,
      at_ (group_df df) t k = Some (Val q) ->
      exists r, In r df /\ key3 (snd r) = (t, k)) /\
  (forall k, In k (columns (group_df df)) ->
             exists t q, at_ (group_df df) t k = Some (Val q)) /\
  (forall t, In t (index (group_df df)) ->
             exists k q, at_ (group_df df) t k = Some (Val q)).
Proof.
  assert (Hrow : forall t k,
             existsb (fun r => group_eqb (key3 r) (t, k)) (map snd df) = true <->
             exists r, In r df /\ key3 (snd r) = (t, k)).
  { intros t k. rewrite existsb_exists. split.
    - intros (x & Hx & Hk). apply in_map_iff in Hx as (r & <- & Hr).
      apply group_eqb_eq in Hk. eauto.
    - intros (r & Hr & Hk). exists (snd r). split; [now apply in_map|].
      now apply group_eqb_eq. }
  assert (Hval : forall r, In r df ->
                           exists q, at_ (group_df df) (Extracted.Date (snd r))
                                         (Extracted.Currency (snd r),
                                          Extracted.League (snd r)) = Some (Val q)).
  { intros r Hr. eexists. apply at_group_df.
    apply (in_map key3), (in_map snd). exact Hr. }
  split; [|split; [|split]].
  - intros t k. rewrite at_group_df_cases.
    destruct (in_dec Z.eq_dec t (index (group_df df))) as [Ht | Ht].
    2: { split; [discriminate | intros (H & _); contradiction]. }
    destruct (existsb (key_eqb k) (columns (group_df df))) eqn:Hc.
    2: { split; [discriminate|]. intros (_ & H & _).
         apply existsb_key_In in H. congruence. }
    apply existsb_key_In in Hc.
    destruct (existsb _ (map snd df)) eqn:Hex.
    + split; [discriminate|]. intros (_ & _ & Hn). exfalso.
      apply Hn, Hrow, Hex.
    + split; auto. intros _. repeat split; auto.
      intros Hr. apply Hrow in Hr. congruence.
  - intros t k q. rewrite at_group_df_cases.
    destruct (in_dec Z.eq_dec t (index (group_df df))); [|discriminate].
    destruct (existsb (key_eqb k) (columns (group_df df))); [|discriminate].
    destruct (existsb _ (map snd df)) eqn:Hex; [|discriminate].
    intros _. apply Hrow, Hex.
  - intros k Hk. apply group_df_columns in Hk as (r & Hr & <-).
    destruct (Hval r Hr) as (q & Hq). eauto.
  - intros t Ht. apply group_df_index in Ht as (r & Hr & <-).
    destruct (Hval r Hr) as (q & Hq). eauto.
Qed.

(** ** More on the alignment *)

Lemma foldM_invariant {A B : Type} (f : A -> B -> result A) (P : A -> Prop) :
  (forall a b a', P a -> f a b = Ok a' -> P a') ->
  forall l a a', P a -> foldM f l a = Ok a' -> P a'.
Proof.
  intros Hstep. induction l as [|b l IH]; simpl; intros a a' Ha H.
  - injection H as <-. exact Ha.
  - apply bind_Ok in H as (a1 & H1 & H). eauto.
Qed.

Lemma sort_by_sorted_id {A : Type} (le : A -> A -> bool) (l : list A) :
  Sorted (fun a b => le a b = true) l -> sort_by le l = l.
Proof.
  unfold sort_by. induction 1 as [|a l Hs IH Hhd]; [reflexivity|].
  cbn [fold_right]. rewrite IH.
  destruct Hhd as [|b l Hab]; simpl; [reflexivity|].
  now rewrite Hab.
Qed.

Lemma set_column_columns (df : DataFrame) (k k' : colkey) (v : cell) :
  In k' (columns (set_column df k v)) <-> k' = k \/ In k' (columns df).
Proof.
  unfold set_column, columns. cbn [data].
  destruct (existsb (key_eqb k) (map fst (data df))) eqn:Hex.
  - rewrite map_map.
    assert (Hsame : map (fun c => fst (if key_eqb (fst c) k
                                       then (fst c, repeat v (List.length (index df)))
                                       else c)) (data df) = map fst (data df)).
    { apply map_ext. intros c. destruct (key_eqb (fst c) k); reflexivity. }
    rewrite Hsame. apply existsb_key_In in Hex. split; auto.
    intros [-> | H]; auto.
  - rewrite map_app, in_app_iff. simpl. intuition.
Qed.

Lemma set_column_rectangular (df : DataFrame) (k : colkey) (v : cell) :
  rectangular df -> rectangular (set_column df k v).
Proof.
  unfold rectangular, set_column. cbn [data index]. intros H.
  destruct (existsb (key_eqb k) (columns df)).
  - apply Forall_forall. intros c Hc. apply in_map_iff in Hc as (c0 & <- & Hc0).
    destruct (key_eqb (fst c0) k); simpl.
    + apply repeat_length.
    + rewrite Forall_forall in H. auto.
  - apply Forall_app. split; auto. constructor; [|constructor].
    simpl. apply repeat_length.
Qed.

Section AlignmentMore.
Variable df : DataFrame.
Variable latest : list string.

Let body (cur0 : list string) (st : DataFrame) (c : string) : result DataFrame :=
  if in_list c cur0 then Ok st
  else match columns st with
       | [] => Raise IndexError
       | k0 :: _ => Ok (set_column st (c, snd k0) NaN)
       end.

Lemma fill_league_currency_unfold :
  fill_league_currency df latest =
  do st <- foldM (body (map fst (columns df))) latest df; Ok (sort_index_axis1 st).
Proof. reflexivity. Qed.

Lemma body_Ok (cur0 : list string) (st st' : DataFrame) (c : string) :
  body cur0 st c = Ok st' ->
  index st' = index st /\
  (rectangular st -> rectangular st') /\
  (forall k, In k (columns st) -> In k (columns st')) /\
  (In c cur0 \/ In c (map fst (columns st'))).
Proof.
  unfold body. destruct (in_list c cur0) eqn:Hc.
  - intros [= <-]. repeat split; auto. left. now apply in_list_In.
  - destruct (columns st) as [|k0 ks] eqn:Hcols; [discriminate|].
    intros [= <-]. split; [reflexivity|]. split; [apply set_column_rectangular|].
    split.
    + intros k Hk. apply set_column_columns. right. rewrite Hcols. exact Hk.
    + right. apply in_map_iff. exists (c, snd k0). split; [reflexivity|].
      apply set_column_columns. auto.
Qed.

Lemma fill_loop_Ok (cur0 : list string) (l : list string) :
  forall st st',
    foldM (body cur0) l st = Ok st' ->
    index st' = index st /\
    (rectangular st -> rectangular st') /\
    (forall k, In k (columns st) -> In k (columns st')) /\
    (forall c, In c l -> In c cur0 \/ In c (map fst (columns st'))).
Proof.
  induction l as [|c l IH]; simpl; intros st st' H.
  - injection H as <-. repeat split; auto. intros c [].
  - apply bind_Ok in H as (st1 & H1 & H).
    apply body_Ok in H1 as (Hi1 & Hr1 & Hc1 & Hin1).
    apply IH in H as (Hi & Hr & Hc & Hin).
    split; [congruence|]. split; [auto|]. split; [auto|].
    intros c' [<- | Hc']; auto.
    destruct Hin1 as [? | Hin1]; auto. right.
    apply in_map_iff in Hin1 as (k & <- & Hk). apply in_map. auto.
Qed.

Lemma fill_loop_noop (cur0 : list string) (l : list string) (st : DataFrame) :
  (forall c, In c l -> In c cur0) -> foldM (body cur0) l st = Ok st.
Proof.
  induction l as [|c l IH]; simpl; intros H; [reflexivity|].
  unfold body at 1. rewrite (proj2 (in_list_In c cur0)) by (apply H; auto).
  simpl. apply IH. intros c' Hc'; apply H; auto.
Qed.

(** What a successful alignment returns. *)
Lemma fill_league_currency_Ok (df' : DataFrame) :
  fill_league_currency df latest = Ok df' ->
  index df' = index df /\
  (rectangular df -> rectangular df') /\
  (forall k, In k (columns df) -> In k (columns df')) /\
  (forall c, In c latest -> In c (map fst (columns df'))) /\
  Sorted (fun c1 c2 => key_leb (fst c1) (fst c2) = true) (data df').
Proof.
  rewrite fill_league_currency_unfold. intros H.
  apply bind_Ok in H as (st & Hloop & H). injection H as <-.
  apply fill_loop_Ok in Hloop as (Hi & Hr & Hc & Hin).
  pose proof (sort_by_perm (fun c1 c2 => key_leb (fst c1) (fst c2)) (data st)) as Hperm.
  assert (Hcols : forall k, In k (columns st) -> In k (columns (sort_index_axis1 st))).
  { intros k Hk. unfold columns, sort_index_axis1 in *. cbn [data].
    eapply Permutation_in; [apply Permutation_map, Hperm | exact Hk]. }
  split; [exact Hi|]. split; [|split; [|split]].
  - intros Hrect. specialize (Hr Hrect). unfold rectangular, sort_index_axis1 in *.
    cbn [data index]. eapply Permutation_Forall; eauto.
  - auto.
  - intros c Hc'. destruct (Hin c Hc') as [H0 | H1].
    + apply in_map_iff in H0 as (k & <- & Hk). apply in_map. auto.
    + apply in_map_iff in H1 as (k & <- & Hk). apply in_map. auto.
  - unfold sort_index_axis1. cbn [data]. apply sort_by_sorted.
    intros x y. apply key_leb_total.
Qed.

(** X14.  Aligning is idempotent: aligning an aligned table against the
    same canonical list returns it unchanged. *)
Theorem fill_league_currency_idempotent (df' : DataFrame) :
  fill_league_currency df latest = Ok df' ->
  fill_league_currency df' latest = Ok df'.
Proof.
  intros H. apply fill_league_currency_Ok in H as (_ & _ & _ & Hin & Hs).
  unfold fill_league_currency. fold (body (map fst (columns df'))).
  rewrite fill_loop_noop by exact Hin. simpl.
  unfold sort_index_axis1. rewrite (sort_by_sorted_id _ _ Hs).
  destruct df'; reflexivity.
Qed.
End AlignmentMore.

(** X13.  The exceptions of [fill_league_currency]: it raises exactly when
    the table has no column and the canonical list is not empty, and then
    [IndexError] (there is no first column to take the league from).  On a
    table without columns and an empty canonical list it returns the table. *)
Theorem fill_league_currency_exceptions (df : DataFrame) (latest : list string) :
  (forall e, fill_league_currency df latest = Raise e <->
             e = IndexError /\ data df = [] /\ latest <> []) /\
  (data df = [] -> latest = [] -> fill_league_currency df latest = Ok df).
Proof.
  split.
  - intros e. split.
    + intros H. destruct (data df) as [|col0 tl] eqn:Hdata.
      * destruct latest as [|c l].
        { rewrite fill_league_currency_unfold in H. discriminate H. }
        rewrite fill_league_currency_unfold in H. simpl in H.
        unfold columns in H. rewrite Hdata in H. simpl in H.
        injection H as <-. repeat split. discriminate.
      * destruct (fill_league_currency_total df latest) as (df' & Hok & _);
          [rewrite Hdata; discriminate | congruence].
    + intros (-> & Hdata & Hl). rewrite fill_league_currency_unfold.
      destruct latest as [|c l]; [congruence|]. simpl.
      unfold columns. rewrite Hdata. reflexivity.
  - intros Hdata ->. rewrite fill_league_currency_unfold. simpl.
    unfold sort_index_axis1. rewrite Hdata. simpl.
    destruct df as [idx dat]. simpl in *. now subst.
Qed.


Lemma fill_league_currency_exceptions_witness :
  fill_league_currency {| index := [0; 1]; data := [] |} ["Orb1"] = Raise IndexError.
Proof.
  apply fill_league_currency_exceptions. repeat split; discriminate.
Defined.

Lemma fill_league_currency_idempotent_witness :
  let df' := {| index := [0; 1];
                data := [(("Old", "A"), [NaN; Val 1%Q]);
                         (("Orb1", "A"), [Val 10%Q; Val 12%Q]);
                         (("Orb2", "A"), [NaN; NaN])] |} in
  fill_league_currency df' ["Orb1"; "Orb2"] = Ok df'.
Proof.
  intros df'.
  apply (fill_league_currency_idempotent
           {| index := [0; 1];
              data := [(("Orb1", "A"), [Val 10%Q; Val 12%Q]);
                       (("Old", "A"), [NaN; Val 1%Q])] |}).
  reflexivity.
Defined.

(** ** More on the join and on [get_data] *)

Lemma join_overlap (left right : DataFrame) (k : colkey) :
  In k (columns left) -> In k (columns right) -> join left right = Raise ValueError.
Proof.
  intros Hl Hr. unfold join.
  assert (H : existsb (fun k => existsb (key_eqb k) (columns right)) (columns left) = true).
  { apply existsb_exists. exists k. split; auto. now apply existsb_key_In. }
  rewrite H. reflexivity.
Qed.

Lemma join_rectangular (left right T : DataFrame) :
  join left right = Ok T -> rectangular left -> rectangular T.
Proof.
  intros H Hrect. apply join_Ok in H as (Hi & Hd & _).
  unfold rectangular in *. rewrite Hd, Hi.
  apply Forall_app. split; [exact Hrect|].
  apply Forall_forall. intros c Hc. apply in_map_iff in Hc as (c0 & <- & _).
  cbn [snd]. unfold reindex. apply length_map.
Qed.

Lemma foldM_app {A B : Type} (f : A -> B -> result A) (l1 l2 : list B) :
  forall a, foldM f (l1 ++ l2) a = do a' <- foldM f l1 a; foldM f l2 a'.
Proof.
  induction l1 as [|b l1 IH]; simpl; intros a; [reflexivity|].
  destruct (f a b); simpl; auto.
Qed.

Lemma Forall2_map_l_inv {A B C : Type} (f : A -> C) (R : C -> B -> Prop)
      (l : list A) :
  forall l', Forall2 R (map f l) l' -> Forall2 (fun a b => R (f a) b) l l'.
Proof.
  induction l as [|a l IH]; simpl; intros l' H; inversion H; subst;
    constructor; auto.
Qed.

Section GetDataMore.
Variable to_datetime : string -> option Z.
Variable read_csv : string -> option (list Raw.row).
Variable latest : list string.

Let table (file_path : string) : result DataFrame :=
  league_table to_datetime read_csv file_path latest.

Let step (df : DataFrame) (file_path : string) : result DataFrame :=
  do league_grp <- table file_path; join df league_grp.

(** A league table is rectangular, sorted by column key, and has a column
    for every canonical currency. *)
Lemma league_table_Ok (file_path : string) (T : DataFrame) :
  table file_path = Ok T ->
  rectangular T /\
  (forall c, In c latest -> In c (map fst (columns T))) /\
  Sorted (fun k1 k2 => key_leb k1 k2 = true) (columns T).
Proof.
  unfold table, league_table. intros H.
  apply bind_Ok in H as (d & _ & H).
  apply fill_league_currency_Ok in H as (_ & Hr & _ & Hin & Hs).
  split; [apply Hr, group_df_rectangular|]. split; [exact Hin|].
  unfold columns. apply Sorted_map. exact Hs.
Qed.

Lemma get_data_loop_columns (rest : list string) :
  forall acc T,
    foldM step rest acc = Ok T ->
    (rectangular acc -> rectangular T) /\
    exists tables,
      Forall2 (fun p Tp => table p = Ok Tp) rest tables /\
      columns T = columns acc ++ List.concat (map columns tables).
Proof.
  induction rest as [|p rest IH]; simpl; intros acc T H.
  - injection H as <-. split; auto. exists []. split; [constructor|].
    simpl. now rewrite app_nil_r.
  - apply bind_Ok in H as (acc' & Hstep & H).
    unfold step in Hstep. apply bind_Ok in Hstep as (Tp & HTp & Hjoin).
    destruct (IH _ _ H) as (Hrect & tables & Hall & Hcols).
    split.
    + intros Hacc. apply Hrect. eapply join_rectangular; eauto.
    + exists (Tp :: tables). split; [constructor; auto|].
      rewrite Hcols, (join_columns _ _ _ Hjoin). simpl.
      now rewrite app_assoc.
Qed.

Lemma get_data_loop_overlap (k : colkey) (p : string) (Tp : DataFrame)
      (rest : list string) :
  In p rest -> table p = Ok Tp -> In k (columns Tp) ->
  forall acc, In k (columns acc) -> exists e, foldM step rest acc = Raise e.
Proof.
  intros Hin HTp Hk. induction rest as [|q rest IH]; simpl; intros acc Hacc;
    [contradiction|].
  destruct (step acc q) as [acc'|e] eqn:Hstep; simpl; [|eauto].
  unfold step in Hstep. apply bind_Ok in Hstep as (Tq & HTq & Hjoin).
  destruct Hin as [-> | Hin].
  - rewrite HTp in HTq. injection HTq as <-.
    rewrite (join_overlap acc Tp k Hacc Hk) in Hjoin. discriminate.
  - apply IH; auto. rewrite (join_columns _ _ _ Hjoin). apply in_or_app; auto.
Qed.

(** X15.  The columns of the combined table are the columns of the league
    tables, league after league in catalog order; the block of every league
    is sorted by column key and has a column for every canonical currency. *)
Theorem get_data_columns (df : list Catalog.row) (G : DataFrame) :
  get_data to_datetime read_csv df latest = Ok G ->
  exists tables,
    Forall2 (fun r Tp =>
               league_table to_datetime read_csv (Catalog.File r) latest = Ok Tp)
            df tables /\
    columns G = List.concat (map columns tables) /\
    (forall Tp, In Tp tables ->
                (forall c, In c latest -> In c (map fst (columns Tp))) /\
                Sorted (fun k1 k2 => key_leb k1 k2 = true) (columns Tp)).
Proof.
  unfold get_data. intros H. apply bind_Ok in H as (T & HT & H). injection H as <-.
  unfold get_data_joined in HT.
  destruct df as [|r df']; [discriminate|]. simpl in HT.
  apply bind_Ok in HT as (T0 & HT0 & Hloop).
  destruct (get_data_loop_columns _ _ _ Hloop) as (_ & tables & Hall & Hcols).
  exists (T0 :: tables). split; [|split].
  - constructor; [exact HT0|].
    exact (Forall2_map_l_inv
             Catalog.File
             (fun p Tp => league_table to_datetime read_csv p latest = Ok Tp)
             _ _ Hall).
  - unfold reset_index, columns in *. cbn [data]. rewrite Hcols. reflexivity.
  - intros Tp [<- | HTp].
    + destruct (league_table_Ok _ _ HT0) as (_ & Hin & Hs). auto.
    + destruct (Forall2_In_r _ _ _ _ Hall HTp) as (p & _ & Hp).
      destruct (league_table_Ok _ _ Hp) as (_ & Hin & Hs). auto.
Qed.

(** X16.  The combined table is rectangular: every column has exactly one
    cell per row, whatever rows the leagues had. *)
Theorem get_data_rectangular (df : list Catalog.row) (G : DataFrame) :
  get_data to_datetime read_csv df latest = Ok G -> rectangular G.
Proof.
  unfold get_data. intros H. apply bind_Ok in H as (T & HT & H). injection H as <-.
  unfold get_data_joined in HT.
  destruct (map Catalog.File df) as [|first rest]; [discriminate|].
  apply bind_Ok in HT as (T0 & HT0 & Hloop).
  destruct (get_data_loop_columns _ _ _ Hloop) as (Hrect & _).
  destruct (league_table_Ok _ _ HT0) as (Hr0 & _).
  specialize (Hrect Hr0).
  unfold rectangular, reset_index in *. cbn [data index].
  rewrite length_map, length_seq. exact Hrect.
Qed.

(** X17.  Column keys must differ from league to league: when the tables of
    two files of the catalog have a column key in common, [get_data] raises
    and returns no table. *)
Theorem get_data_overlap_raises
        (df : list Catalog.row) (l1 l2 l3 : list string) (p1 p2 : string)
        (T1 T2 : DataFrame) (k : colkey) :
  map Catalog.File df = l1 ++ p1 :: l2 ++ p2 :: l3 ->
  league_table to_datetime read_csv p1 latest = Ok T1 ->
  league_table to_datetime read_csv p2 latest = Ok T2 ->
  In k (columns T1) -> In k (columns T2) ->
  exists e, get_data to_datetime read_csv df latest = Raise e.
Proof.
  intros Hfiles HT1 HT2 Hk1 Hk2.
  assert (Hp2 : In p2 (l2 ++ p2 :: l3)) by (apply in_or_app; right; simpl; auto).
  assert (Hj : exists e, get_data_joined to_datetime read_csv df latest = Raise e).
  { unfold get_data_joined. rewrite Hfiles.
    destruct l1 as [|first l1']; simpl.
    - fold (table p1). unfold table at 1. rewrite HT1. simpl.
      apply (get_data_loop_overlap k p2 T2 _ Hp2 HT2 Hk2). exact Hk1.
    - destruct (league_table to_datetime read_csv first latest) as [T0|e]; simpl;
        [|eauto].
      change (exists e, foldM step (l1' ++ p1 :: l2 ++ p2 :: l3) T0 = Raise e).
      rewrite foldM_app.
      destruct (foldM step l1' T0) as [acc|e]; simpl; [|eauto].
      destruct (step acc p1) as [acc1|e] eqn:Hstep; simpl; [|eauto].
      unfold step in Hstep. apply bind_Ok in Hstep as (T1' & HT1' & Hjoin).
      unfold table in HT1'. rewrite HT1 in HT1'. injection HT1' as <-.
      apply (get_data_loop_overlap k p2 T2 _ Hp2 HT2 Hk2).
      rewrite (join_columns _ _ _ Hjoin). apply in_or_app; auto. }
  destruct Hj as (e & He). unfold get_data. rewrite He. simpl; eauto.
Qed.
End GetDataMore.

Lemma get_data_columns_witness :
  let G := {| index := [0; 1];
              data := [(("Orb1", "B"), [Val 5%Q; Val 7%Q]);
                       (("Orb2", "B"), [Val 1%Q; Val 3%Q]);
                       (("Orb1", "A"), [Val 10%Q; NaN]);
                       (("Orb2", "A"), [NaN; NaN])] |} in
  get_data iso_date sample_read_csv sample_catalog ["Orb1"; "Orb2"] = Ok G /\
  exists tables, columns G = List.concat (map columns tables).
Proof.
  intros G.
  assert (HG : get_data iso_date sample_read_csv sample_catalog ["Orb1"; "Orb2"]
               = Ok G) by reflexivity.
  split; [exact HG|].
  destruct (get_data_columns _ _ _ _ _ HG) as (tables & _ & Hcols & _).
  exists tables. exact Hcols.
Defined.

Lemma get_data_rectangular_witness :
  let G := {| index := [0; 1];
              data := [(("Orb1", "B"), [Val 5%Q; Val 7%Q]);
                       (("Orb2", "B"), [Val 1%Q; Val 3%Q]);
                       (("Orb1", "A"), [Val 10%Q; NaN]);
                       (("Orb2", "A"), [NaN; NaN])] |} in
  get_data iso_date sample_read_csv sample_catalog ["Orb1"; "Orb2"] = Ok G /\
  rectangular G.
Proof.
  intros G.
  assert (HG : get_data iso_date sample_read_csv sample_catalog ["Orb1"; "Orb2"]
               = Ok G) by reflexivity.
  split; [exact HG|].
  exact (get_data_rectangular _ _ _ _ _ HG).
Defined.

(** Two files with the dump of league B: both tables have the columns of B. *)
Lemma get_data_overlap_raises_witness :
  exists e, get_data iso_date (fun _ => Some dump_B) sample_catalog ["Orb1"; "Orb2"]
            = Raise e.
Proof.
  refine (get_data_overlap_raises
            iso_date (fun _ => Some dump_B) ["Orb1"; "Orb2"] sample_catalog
            [] [] [] file_B file_A
            {| index := [0; 2];
               data := [(("Orb1", "B"), [Val 5%Q; Val 7%Q]);
                        (("Orb2", "B"), [Val 1%Q; Val 3%Q])] |}
            {| index := [0; 2];
               data := [(("Orb1", "B"), [Val 5%Q; Val 7%Q]);
                        (("Orb2", "B"), [Val 1%Q; Val 3%Q])] |}
            ("Orb1", "B") eq_refl eq_refl eq_refl _ _); simpl; auto.
Defined.

(** ** The renderer *)

Lemma mapM_forallb {A B : Type} (f : A -> result B) (p : A -> bool) (g : A -> B)
      (e : exn) (l : list A) :
  (forall a, In a l -> f a = if p a then Ok (g a) else Raise e) ->
  mapM f l = if forallb p l then Ok (map g l) else Raise e.
Proof.
  induction l as [|a l IH]; simpl; intros H; [reflexivity|].
  rewrite (H a) by auto. destruct (p a); simpl; [|reflexivity].
  rewrite IH by (intros b Hb; apply H; auto).
  destruct (forallb p l); reflexivity.
Qed.

Lemma fillna_columns (v : Q) (df : DataFrame) : columns (fillna v df) = columns df.
Proof. unfold columns, fillna. cbn [data]. rewrite map_map. reflexivity. Qed.

Lemma getitem_fillna (df : DataFrame) (k : colkey) :
  getitem (fillna 0%Q df) k =
  if existsb (key_eqb k) (columns df) then Ok (filled_column df k) else Raise KeyError.
Proof.
  unfold getitem, filled_column, fillna. cbn [data].
  rewrite (lookup_map_cells
             (fun c => map (fun a => match a with NaN => Val 0%Q | Val q => Val q end)
                           (snd c))).
  rewrite lookup_entry.
  destruct (existsb (key_eqb k) (columns df)) eqn:Hex.
  - apply existsb_key_In in Hex.
    destruct (lookup_In_Some k (data df) Hex) as (cells & ->). reflexivity.
  - rewrite (lookup_None_notin k (data df) Hex). reflexivity.
Qed.

Lemma filled_column_no_NaN (df : DataFrame) (k : colkey) :
  ~ In NaN (filled_column df k).
Proof.
  unfold filled_column. destruct (lookup key_eqb k (data df)) as [cells|]; [|intros []].
  intros H. apply in_map_iff in H as ([|q] & Ha & _); discriminate.
Qed.

Section Renderer.
Variable self : PoEDataImporter.
Variable league_names_arg currency_list_arg : option (list string).

Let table : DataFrame := df self.
Let names : list string := or_default league_names_arg (league_names self).
Let currencies : list string := or_default currency_list_arg (latest_currency self).
Let has (k : colkey) : bool := existsb (key_eqb k) (columns table).

(** [plot_currency] on the default table, in closed form. *)
Lemma plot_currency_default :
  plot_currency self None league_names_arg currency_list_arg =
  match columns table with
  | [] =>
      match names with
      | [] => Ok (figure_of table EmptyString [] currencies)
      | _ :: _ => Raise IndexError
      end
  | k0 :: _ =>
      if forallb (fun l => has (fst k0, l)) names
      then if forallb (fun c => forallb (fun l => has (c, l)) names) currencies
           then Ok (figure_of table (fst k0) names currencies)
           else Raise KeyError
      else Raise KeyError
  end.
Proof.
  unfold plot_currency. cbn [bind]. fold table names currencies.
  rewrite fillna_columns. generalize names. intros nm.
  assert (Hbuttons :
            mapM (fun currency =>
                    do ys <- mapM (fun league => getitem (fillna 0%Q table) (currency, league))
                                  nm;
                    Ok (Plot.mkButton "restyle" currency ys)) currencies =
            if forallb (fun c => forallb (fun l => has (c, l)) nm) currencies
            then Ok (map (fun c => Plot.mkButton
                                     "restyle" c
                                     (map (fun l => filled_column table (c, l)) nm))
                         currencies)
            else Raise KeyError).
  { apply mapM_forallb. intros c _.
    rewrite (mapM_forallb _ (fun l => has (c, l))
                          (fun l => filled_column table (c, l)) KeyError)
      by (intros l _; apply getitem_fillna).
    destruct (forallb _ nm); reflexivity. }
  rewrite Hbuttons. clear Hbuttons.
  destruct (columns table) as [|k0 ks] eqn:Hcols.
  - destruct nm as [|l ls]; [|reflexivity].
    cbn [mapM bind forallb].
    assert (Hall : forallb (fun _ : string => true) currencies = true)
      by (apply forallb_forall; auto).
    rewrite Hall. reflexivity.
  - rewrite (mapM_forallb _ (fun l => has (fst k0, l))
                          (fun l => Plot.mkScatter (index table)
                                                   (filled_column table (fst k0, l)) l)
                          KeyError).
    + destruct (forallb _ nm); [|reflexivity]. cbn [bind].
      destruct (forallb _ currencies); reflexivity.
    + intros l _. rewrite getitem_fillna, Hcols. unfold has.
      destruct (existsb _ _); reflexivity.
Qed.

(** X18.  With the default table, when the table has, for every league
    name, a column of the currency of its first column and a column of every
    listed currency, [plot_currency] shows the figure with one trace per
    league, in the order of the league names, over the rows of the table,
    and one menu button per currency, in the order of the list, holding one
    series per league; no series holds a missing cell (zero is shown
    instead). *)
Theorem plot_currency_figure (k0 : colkey) (ks : list colkey) :
  columns table = k0 :: ks ->
  (forall l c, In l names -> In c (fst k0 :: currencies) ->
               In (c, l) (columns table)) ->
  plot_currency self None league_names_arg currency_list_arg =
  Ok (figure_of table (fst k0) names currencies) /\
  map Plot.name (Plot.traces (figure_of table (fst k0) names currencies)) = names /\
  map Plot.label (Plot.buttons (figure_of table (fst k0) names currencies))
  = currencies /\
  (forall tr, In tr (Plot.traces (figure_of table (fst k0) names currencies)) ->
              Plot.x tr = index table /\ ~ In NaN (Plot.y tr)) /\
  (forall b, In b (Plot.buttons (figure_of table (fst k0) names currencies)) ->
             List.length (Plot.args_y b) = List.length names /\
             forall ys, In ys (Plot.args_y b) -> ~ In NaN ys).
Proof.
  intros Hcols Hhas. split; [|split; [|split; [|split]]].
  - rewrite plot_currency_default, Hcols.
    assert (H1 : forallb (fun l => has (fst k0, l)) names = true).
    { apply forallb_forall. intros l Hl. apply existsb_key_In.
      apply Hhas; simpl; auto. }
    assert (H2 : forallb (fun c => forallb (fun l => has (c, l)) names) currencies
                 = true).
    { apply forallb_forall. intros c Hc. apply forallb_forall. intros l Hl.
      apply existsb_key_In. apply Hhas; simpl; auto. }
    rewrite H1, H2. reflexivity.
  - cbn [figure_of Plot.traces]. rewrite map_map. cbn [Plot.name]. apply map_id.
  - cbn [figure_of Plot.buttons]. rewrite map_map. cbn [Plot.label]. apply map_id.
  - intros tr Htr. cbn [figure_of Plot.traces] in Htr.
    apply in_map_iff in Htr as (l & <- & _). cbn [Plot.x Plot.y].
    split; [reflexivity | apply filled_column_no_NaN].
  - intros b Hb. cbn [figure_of Plot.buttons] in Hb.
    apply in_map_iff in Hb as (c & <- & _). cbn [Plot.args_y].
    split; [apply length_map|].
    intros ys Hys. apply in_map_iff in Hys as (l & <- & _).
    apply filled_column_no_NaN.
Qed.

(** X19.  The exceptions of [plot_currency].  Handing it a data frame
    raises [ValueError], whatever the frame.  With the default table it
    raises [IndexError] exactly when the table has no column while there are
    league names, and [KeyError] exactly when the table has columns but lacks,
    for some league name, the column of the currency of its first column or
    of a listed currency. *)
Theorem plot_currency_exceptions :
  (forall d, plot_currency self (Some d) league_names_arg currency_list_arg
             = Raise ValueError) /\
  (plot_currency self None league_names_arg currency_list_arg = Raise IndexError <->
   columns table = [] /\ names <> []) /\
  (plot_currency self None league_names_arg currency_list_arg = Raise KeyError <->
   exists k0 ks l c,
     columns table = k0 :: ks /\ In l names /\ In c (fst k0 :: currencies) /\
     ~ In (c, l) (columns table)).
Proof.
  split; [reflexivity|].
  rewrite plot_currency_default. unfold has.
  assert (Hfalse : forall (A : Type) (p : A -> bool) (l : list A),
             forallb p l = false -> exists a, In a l /\ p a = false).
  { intros A p l. induction l as [|a l IH]; simpl; [discriminate|].
    destruct (p a) eqn:Hp; simpl.
    - intros H. destruct (IH H) as (b & Hb & Hpb). eauto.
    - intros _. eauto. }
  assert (Hmiss : forall k, existsb (key_eqb k) (columns table) = false <->
                            ~ In k (columns table)).
  { intros k. rewrite <- existsb_key_In.
    destruct (existsb (key_eqb k) (columns table)); split; congruence. }
  destruct (columns table) as [|k0 ks].
  - split.
    + destruct names as [|l ls]; split.
      * discriminate.
      * intros [_ H]. congruence.
      * intros _. split; [reflexivity | discriminate].
      * reflexivity.
    + split.
      * destruct names; discriminate.
      * intros (k0 & ks & _ & _ & H & _). discriminate.
  - split.
    + split.
      * destruct (forallb _ names); [destruct (forallb _ currencies)|]; discriminate.
      * intros [H _]. discriminate.
    + split.
      * intros H. exists k0, ks.
        destruct (forallb (fun l => existsb (key_eqb (fst k0, l)) (k0 :: ks)) names)
          eqn:H1.
        -- destruct (forallb _ currencies) eqn:H2; [discriminate|].
           apply Hfalse in H2 as (c & Hc & H2).
           apply Hfalse in H2 as (l & Hl & H2).
           exists l, c. split; [reflexivity|]. split; [exact Hl|].
           split; [right; exact Hc | apply Hmiss, H2].
        -- apply Hfalse in H1 as (l & Hl & H1).
           exists l, (fst k0). split; [reflexivity|]. split; [exact Hl|].
           split; [left; reflexivity | apply Hmiss, H1].
      * intros (k0' & ks' & l & c & [= <- <-] & Hl & Hc & Hno).
        apply Hmiss in Hno.
        destruct (forallb (fun l => existsb (key_eqb (fst k0, l)) (k0 :: ks)) names)
          eqn:H1; [|reflexivity].
        destruct (forallb _ currencies) eqn:H2; [|reflexivity].
        exfalso. destruct Hc as [<- | Hc].
        -- rewrite forallb_forall in H1. rewrite (H1 l Hl) in Hno. discriminate.
        -- rewrite forallb_forall in H2. specialize (H2 c Hc).
           rewrite forallb_forall in H2. rewrite (H2 l Hl) in Hno. discriminate.
Qed.
End Renderer.

Lemma plot_currency_figure_witness :
  let G := {| index := [0; 1];
              data := [(("Orb1", "B"), [Val 5%Q; Val 7%Q]);
                       (("Orb2", "B"), [Val 1%Q; Val 3%Q]);
                       (("Orb1", "A"), [Val 10%Q; NaN]);
                       (("Orb2", "A"), [NaN; NaN])] |} in
  let imp := mkImporter [file_A; file_B] sample_catalog ["Orb1"; "Orb2"] ["B"; "A"] G in
  init iso_date sample_read_csv [file_A; file_B] = Ok imp /\
  plot_currency imp None None None =
  Ok (figure_of G "Orb1" ["B"; "A"] ["Orb1"; "Orb2"]).
Proof.
  intros G imp. split; [reflexivity|].
  refine (proj1 (plot_currency_figure imp None None ("Orb1", "B")
                   [("Orb2", "B"); ("Orb1", "A"); ("Orb2", "A")] eq_refl _)).
  intros l c [<- | [<- | []]] [<- | [<- | [<- | []]]]; simpl; auto 6.
Defined.

(** League names that the table has no column for. *)
Lemma plot_currency_exceptions_witness :
  let G := {| index := [0; 1];
              data := [(("Orb1", "B"), [Val 5%Q; Val 7%Q])] |} in
  let imp := mkImporter [] [] ["Orb1"] ["dumps/B"] G in
  plot_currency imp None None None = Raise KeyError.
Proof.
  intros G imp.
  apply (plot_currency_exceptions imp None None).
  exists ("Orb1", "B"), [], "dumps/B", "Orb1".
  split; [reflexivity|]. split; [simpl; auto|]. split; [simpl; auto|].
  simpl. intros [H | []]. discriminate H.
Defined.

(** ** From the discovered files to the figure *)

Lemma set_column_origin (df : DataFrame) (k k' : colkey) (v : cell) :
  In k' (columns (set_column df k v)) -> In k' (columns df) \/ k' = k.
Proof. intros H. apply set_column_columns in H. tauto. Qed.

(** Where the columns of an aligned table come from: a column of the input,
    or a canonical currency under the league of a column of the input. *)
Lemma fill_league_currency_origin (df df' : DataFrame) (latest : list string) :
  fill_league_currency df latest = Ok df' ->
  forall k, In k (columns df') ->
            In k (columns df) \/
            (In (fst k) latest /\ exists k', In k' (columns df) /\ snd k = snd k').
Proof.
  unfold fill_league_currency. intros H.
  apply bind_Ok in H as (st & Hloop & H). injection H as <-.
  set (P := fun st : DataFrame =>
              forall k, In k (columns st) ->
                        In k (columns df) \/
                        (exists c, In c latest /\ fst k = c) /\
                        exists k', In k' (columns df) /\ snd k = snd k').
  assert (HP : P st).
  { revert Hloop.
    assert (Hgen : forall l st0 st1,
               (forall c, In c l -> In c latest) -> P st0 ->
               foldM (fun df0 lastest_currency =>
                        if in_list lastest_currency (map fst (columns df))
                        then Ok df0
                        else match columns df0 with
                             | [] => Raise IndexError
                             | k0 :: _ => Ok (set_column df0 (lastest_currency, snd k0) NaN)
                             end) l st0 = Ok st1 -> P st1).
    { induction l as [|c l IH]; simpl; intros st0 st1 Hl H0 H.
      - injection H as <-. exact H0.
      - apply bind_Ok in H as (st2 & Hstep & H).
        apply (IH st2 st1); auto.
        destruct (in_list c (map fst (columns df))); [injection Hstep as <-; exact H0|].
        destruct (columns st0) as [|k0 ks] eqn:Hcols; [discriminate|].
        injection Hstep as <-. intros k Hk.
        apply set_column_origin in Hk as [Hk | ->]; [apply H0; exact Hk|].
        right. split; [exists c; split; auto|].
        assert (Hk0 : In k0 (columns st0)) by (rewrite Hcols; simpl; auto).
        destruct (H0 k0 Hk0) as [Hin | (_ & k' & Hk' & Hs)]; eauto. }
    apply Hgen; auto. intros k Hk. left. exact Hk. }
  intros k Hk.
  assert (Hst : In k (columns st)).
  { unfold columns, sort_index_axis1 in *. cbn [data] in Hk.
    eapply Permutation_in; [apply Permutation_map, Permutation_sym, sort_by_perm|].
    exact Hk. }
  destruct (HP k Hst) as [H0 | ((c & Hc & <-) & Hk')]; auto.
Qed.

Section BuiltImporter.
Variable to_datetime : string -> option Z.
Variable read_csv : string -> option (list Raw.row).

Lemma init_Ok_full (csv_files : list string) (imp : PoEDataImporter) :
  init to_datetime read_csv csv_files = Ok imp ->
  get_file_df to_datetime (get_currency_file_paths csv_files) = Ok (df_files imp) /\
  get_latest_currency_list to_datetime read_csv (df_files imp)
  = Ok (latest_currency imp) /\
  league_names imp = map Catalog.League (df_files imp) /\
  get_data to_datetime read_csv (df_files imp) (latest_currency imp) = Ok (df imp).
Proof.
  unfold init. intros H.
  apply bind_Ok in H as (cat & Hcat & H).
  apply bind_Ok in H as (cur & Hcur & H).
  apply bind_Ok in H as (T & HT & H).
  injection H as <-. simpl. auto.
Qed.

(** On a catalog sorted by date, the latest league, when there is one, is
    the first record. *)
Lemma get_latest_league_data_head (r : Catalog.row) (rest : list Catalog.row)
      (d : labelled) :
  (forall r', In r' rest -> Catalog.Date r' <= Catalog.Date r) ->
  get_latest_league_data to_datetime read_csv (r :: rest) = Ok d ->
  extract_df to_datetime read_csv (Catalog.File r) = Ok d.
Proof.
  intros Hmax H.
  rewrite (get_latest_league_data_filter to_datetime read_csv _ (Catalog.Date r) r) in H.
  - simpl in H. rewrite Z.eqb_refl in H. simpl in H.
    destruct (filter _ rest); [exact H | discriminate].
  - intros r' [<- | Hr']; [lia | auto].
  - simpl. rewrite Z.eqb_refl. simpl; auto.
Qed.

(** The columns of a league table: the leagues are leagues of extracted
    rows, the currencies are canonical or currencies of extracted rows. *)
Lemma league_table_columns (file_path : string) (latest : list string)
      (T : DataFrame) :
  league_table to_datetime read_csv file_path latest = Ok T ->
  exists d,
    extract_df to_datetime read_csv file_path = Ok d /\
    columns T <> [] /\
    forall k, In k (columns T) ->
              (exists row, In row d /\ Extracted.League (snd row) = snd k) /\
              (In (fst k) latest \/
               exists row, In row d /\ Extracted.Currency (snd row) = fst k).
Proof.
  unfold league_table. intros H. apply bind_Ok in H as (d & Hd & H).
  exists d. split; [exact Hd|].
  pose proof (fill_league_currency_origin _ _ _ H) as Horigin.
  pose proof (fill_league_currency_Ok _ _ _ H) as (_ & _ & Hkeep & _).
  split.
  - assert (Hne : d <> []).
    { apply extract_df_Ok in Hd as (r0 & rest & a & _ & Hpay & _ & Hall).
      simpl in Hall. rewrite Hpay in Hall. simpl in Hall.
      inversion Hall; discriminate. }
    apply group_df_has_column in Hne.
    destruct (data (group_df d)) as [|c0 cs] eqn:Hdata; [congruence|].
    assert (Hin : In (fst c0) (columns T)).
    { apply Hkeep. unfold columns. rewrite Hdata. simpl; auto. }
    intros Habs. rewrite Habs in Hin. contradiction.
  - intros k Hk. destruct (Horigin k Hk) as [Hg | (Hc & k' & Hk' & Hs)].
    + apply group_df_columns in Hg as (row & Hrow & <-). simpl.
      split; [exists row; auto | right; exists row; auto].
    + apply group_df_columns in Hk' as (row & Hrow & <-). simpl in Hs.
      split; [exists row; auto | left; exact Hc].
Qed.

(** X20.  From the discovered files to the figure.  For an importer that
    the constructor has built, when in every dump of the catalog the rows
    priced in the base currency carry, in their [League] column, the league
    name read from the file name, the default call of [plot_currency] shows
    a figure: one trace per league of the catalog, over the first canonical
    column of the most recent league, and one button per canonical
    currency. *)
Theorem plot_currency_of_built_importer
        (csv_files : list string) (imp : PoEDataImporter) :
  init to_datetime read_csv csv_files = Ok imp ->
  (forall r rows raw,
      In r (df_files imp) -> read_csv (Catalog.File r) = Some rows ->
      In raw rows -> Raw.Pay raw = base_currency ->
      Raw.League raw = Catalog.League r) ->
  exists k0 ks,
    columns (df imp) = k0 :: ks /\
    In (fst k0) (latest_currency imp) /\
    plot_currency imp None None None =
    Ok (figure_of (df imp) (fst k0) (league_names imp) (latest_currency imp)).
Proof.
  intros Hinit Hleague.
  apply init_Ok_full in Hinit as (Hcat & Hlatest & Hnames & Hdata).
  set (latest := latest_currency imp) in *.
  (* the league tables, in catalog order *)
  unfold get_data in Hdata. apply bind_Ok in Hdata as (T & HT & HG).
  injection HG as HG.
  assert (Hcolumns : columns (df imp) = columns T)
    by (rewrite <- HG; reflexivity).
  unfold get_data_joined in HT.
  destruct (df_files imp) as [|r0 rest] eqn:Hfiles; [discriminate|].
  simpl in HT. apply bind_Ok in HT as (T0 & HT0 & Hloop).
  destruct (get_data_loop_columns to_datetime read_csv latest _ _ _ Hloop)
    as (_ & tables & Hall & Hcols).
  (* every column of the table of a record is under the league of the record *)
  assert (Hunder : forall r Tp k,
             In r (r0 :: rest) ->
             league_table to_datetime read_csv (Catalog.File r) latest = Ok Tp ->
             In k (columns Tp) -> snd k = Catalog.League r).
  { intros r Tp k Hr HTp Hk.
    destruct (league_table_columns _ _ _ HTp) as (d & Hd & _ & Hfrom).
    destruct (Hfrom k Hk) as ((row & Hrow & <-) & _).
    pose proof (extract_df_Ok to_datetime read_csv _ _ Hd)
      as (raw0 & raws & a & Hread & _ & _ & Hrows).
    destruct (Forall2_In_r _ _ _ _ Hrows Hrow) as (raw & Hraw & t & _ & Hx).
    apply filter_In in Hraw as [Hraw Hp]. apply String.eqb_eq in Hp.
    rewrite Hx. simpl.
    apply (Hleague r (raw0 :: raws) raw Hr Hread Hraw Hp). }
  (* the columns that the figure needs *)
  assert (Hhas : forall r c,
             In r (r0 :: rest) -> In c latest ->
             In (c, Catalog.League r) (columns T)).
  { intros r c Hr Hc.
    assert (HTp : exists Tp,
               league_table to_datetime read_csv (Catalog.File r) latest = Ok Tp /\
               forall k, In k (columns Tp) -> In k (columns T)).
    { destruct Hr as [<- | Hr].
      - exists T0. split; [exact HT0|]. intros k Hk.
        rewrite Hcols. apply in_or_app; auto.
      - assert (Hp : In (Catalog.File r) (map Catalog.File rest))
          by (apply in_map; exact Hr).
        destruct (Forall2_In_l _ _ _ _ Hall Hp) as (Tp & HTp & Htab).
        exists Tp. split; [exact Htab|]. intros k Hk.
        rewrite Hcols. apply in_or_app. right.
        apply in_concat. exists (columns Tp). split; [apply in_map; exact HTp | exact Hk]. }
    destruct HTp as (Tp & HTp & Hsub).
    destruct (league_table_Ok to_datetime read_csv latest _ _ HTp) as (_ & Hcur & _).
    specialize (Hcur c Hc). apply in_map_iff in Hcur as (k & Hfst & Hk).
    pose proof (Hunder r Tp k Hr HTp Hk) as Hsnd.
    apply Hsub. destruct k as [c' l']; simpl in *. subst. exact Hk. }
  (* the first column is a column of the most recent league *)
  destruct (league_table_columns _ _ _ HT0) as (d0 & Hd0 & Hne0 & Hfrom0).
  destruct (columns T0) as [|k0 ks0] eqn:Hcols0; [congruence|].
  assert (Hk0 : In (fst k0) latest).
  { destruct (Hfrom0 k0 (or_introl eq_refl)) as (_ & [Hc | (row & Hrow & Hc)]);
      [exact Hc|].
    unfold get_latest_currency_list in Hlatest.
    apply bind_Ok in Hlatest as (dl & Hdl & Hl). injection Hl as Hl.
    fold latest in Hl.
    assert (Hmax : forall r', In r' rest -> Catalog.Date r' <= Catalog.Date r0).
    { apply catalog_head_latest.
      apply get_file_df_Ok in Hcat as (dd & dated & _ & _ & ->).
      apply sort_values_desc_sorted. }
    pose proof (get_latest_league_data_head _ _ _ Hmax Hdl) as Hhead.
    rewrite Hd0 in Hhead. injection Hhead as <-.
    rewrite <- Hl.
    apply (Permutation_in _ (sort_by_perm String.leb (get_currency_list d0))).
    apply unique_In, in_map_iff. exists row. auto. }
  exists k0, (ks0 ++ List.concat (map columns tables)).
  assert (Hfirst : columns (df imp) = k0 :: ks0 ++ List.concat (map columns tables))
    by (rewrite Hcolumns, Hcols; reflexivity).
  split; [exact Hfirst|]. split; [exact Hk0|].
  assert (Hcol : forall l c, In l (league_names imp) -> In c latest ->
                             existsb (key_eqb (c, l)) (columns (df imp)) = true).
  { intros l c Hl Hc. rewrite Hnames in Hl.
    apply in_map_iff in Hl as (r & <- & Hr).
    apply existsb_key_In. rewrite Hcolumns. apply Hhas; auto. }
  rewrite plot_currency_default. cbn [or_default]. fold latest.
  rewrite Hfirst at 1.
  assert (H1 : forallb (fun l => existsb (key_eqb (fst k0, l)) (columns (df imp)))
                       (league_names imp) = true)
    by (apply forallb_forall; intros l Hl; apply Hcol; auto).
  assert (H2 : forallb (fun c => forallb (fun l => existsb (key_eqb (c, l))
                                                           (columns (df imp)))
                                         (league_names imp)) latest = true).
  { apply forallb_forall. intros c Hc. apply forallb_forall. intros l Hl.
    apply Hcol; auto. }
  rewrite H1, H2. reflexivity.
Qed.
End BuiltImporter.

Lemma plot_currency_of_built_importer_witness :
  exists imp k0 ks,
    init iso_date sample_read_csv [file_A; file_B] = Ok imp /\
    columns (df imp) = k0 :: ks /\
    plot_currency imp None None None =
    Ok (figure_of (df imp) (fst k0) (league_names imp) (latest_currency imp)).
Proof.
  destruct (init iso_date sample_read_csv [file_A; file_B]) as [imp|e] eqn:Hinit;
    [|vm_compute in Hinit; discriminate].
  assert (Hfiles : df_files imp = sample_catalog)
    by (vm_compute in Hinit; injection Hinit as <-; reflexivity).
  destruct (plot_currency_of_built_importer iso_date sample_read_csv _ imp Hinit)
    as (k0 & ks & Hcols & _ & Hplot).
  - rewrite Hfiles. intros r rows raw [<- | [<- | []]] Hread Hraw _;
      vm_compute in Hread; injection Hread as <-; simpl in Hraw;
      repeat (destruct Hraw as [<- | Hraw]; [reflexivity|]); contradiction.
  - exists imp, k0, ks. auto.
Defined.

(** ** When [get_data] returns a table *)

Lemma join_disjoint (left right : DataFrame) :
  disjoint_columns left right -> exists T, join left right = Ok T.
Proof.
  intros Hd. unfold join.
  destruct (existsb _ (columns left)) eqn:Hov; [|eauto].
  apply existsb_exists in Hov as (k & Hk & Hr). apply existsb_key_In in Hr.
  exfalso. apply (Hd k); auto.
Qed.

Lemma join_Ok_disjoint (left right T : DataFrame) :
  join left right = Ok T -> disjoint_columns left right.
Proof.
  intros H k Hl Hr. apply join_Ok in H as (_ & _ & Hno).
  specialize (Hno k Hr). apply existsb_key_In in Hl. congruence.
Qed.

Section GetDataSuccess.
Variable to_datetime : string -> option Z.
Variable read_csv : string -> option (list Raw.row).
Variable latest : list string.

Let table (file_path : string) : result DataFrame :=
  league_table to_datetime read_csv file_path latest.

Let step (df : DataFrame) (file_path : string) : result DataFrame :=
  do league_grp <- table file_path; join df league_grp.

Lemma get_data_loop_succeeds (rest : list string) (tables : list DataFrame) :
  Forall2 (fun p Tp => table p = Ok Tp) rest tables ->
  ForallOrdPairs disjoint_columns tables ->
  forall acc, (forall Tp, In Tp tables -> disjoint_columns acc Tp) ->
              exists T, foldM step rest acc = Ok T.
Proof.
  induction 1 as [|p Tp rest tables HTp Hall IH]; simpl; intros Hpairs acc Hacc.
  - eauto.
  - inversion Hpairs as [|? ? Hhd Htl]; subst.
    unfold step at 1. rewrite HTp. simpl.
    destruct (join_disjoint acc Tp) as (acc' & Hjoin); [apply Hacc; simpl; auto|].
    rewrite Hjoin. simpl. apply IH; auto.
    intros Tq Hq k Hk. rewrite (join_columns _ _ _ Hjoin) in Hk.
    apply in_app_or in Hk as [Hk | Hk].
    + apply (Hacc Tq); simpl; auto.
    + rewrite Forall_forall in Hhd. apply (Hhd Tq Hq k Hk).
Qed.

Lemma get_data_loop_disjoint (rest : list string) :
  forall acc T,
    foldM step rest acc = Ok T ->
    exists tables,
      Forall2 (fun p Tp => table p = Ok Tp) rest tables /\
      ForallOrdPairs disjoint_columns tables /\
      forall Tp, In Tp tables -> disjoint_columns acc Tp.
Proof.
  induction rest as [|p rest IH]; simpl; intros acc T H.
  - exists []. repeat split; [constructor | constructor | intros Tp []].
  - apply bind_Ok in H as (acc' & Hstep & H).
    unfold step in Hstep. apply bind_Ok in Hstep as (Tp & HTp & Hjoin).
    destruct (IH _ _ H) as (tables & Hall & Hpairs & Hacc').
    pose proof (join_columns _ _ _ Hjoin) as Hcols.
    exists (Tp :: tables). split; [constructor; auto|]. split.
    + constructor; auto. apply Forall_forall. intros Tq Hq k Hk.
      apply (Hacc' Tq Hq). rewrite Hcols. apply in_or_app; auto.
    + intros Tq [<- | Hq].
      * apply (join_Ok_disjoint _ _ _ Hjoin).
      * intros k Hk. apply (Hacc' Tq Hq). rewrite Hcols. apply in_or_app; auto.
Qed.

(** X21.  [get_data] returns a table exactly when the catalog is not empty,
    every file of the catalog extracts and aligns to a league table, and no
    two of these tables have a column key in common. *)
Theorem get_data_succeeds_iff (df : list Catalog.row) :
  (exists G, get_data to_datetime read_csv df latest = Ok G) <->
  df <> [] /\
  exists tables,
    Forall2 (fun r Tp =>
               league_table to_datetime read_csv (Catalog.File r) latest = Ok Tp)
            df tables /\
    ForallOrdPairs disjoint_columns tables.
Proof.
  split.
  - intros (G & HG). unfold get_data in HG.
    apply bind_Ok in HG as (T & HT & _). unfold get_data_joined in HT.
    destruct df as [|r df']; [discriminate|]. split; [discriminate|].
    simpl in HT. apply bind_Ok in HT as (T0 & HT0 & Hloop).
    destruct (get_data_loop_disjoint _ _ _ Hloop) as (tables & Hall & Hpairs & Hacc).
    exists (T0 :: tables). split.
    + constructor; [exact HT0|].
      exact (Forall2_map_l_inv
               Catalog.File
               (fun p Tp => league_table to_datetime read_csv p latest = Ok Tp)
               _ _ Hall).
    + constructor; auto. apply Forall_forall. exact Hacc.
  - intros (Hne & tables & Hall & Hpairs).
    destruct Hall as [|r T0 df' tables' HT0 Hall]; [congruence|].
    inversion Hpairs as [|? ? Hhd Htl]; subst.
    unfold get_data, get_data_joined. simpl. rewrite HT0. simpl.
    destruct (get_data_loop_succeeds (map Catalog.File df') tables') with (acc := T0)
      as (T & HT).
    + apply Forall2_map_l. exact Hall.
    + exact Htl.
    + rewrite Forall_forall in Hhd. exact Hhd.
    + change (exists G, (do T' <- foldM step (map Catalog.File df') T0;
                         Ok (reset_index T')) = Ok G).
      rewrite HT. simpl. eauto.
Qed.
End GetDataSuccess.

(** ** The properties on the sample dumps *)

Lemma get_currency_file_paths_spec_witness :
  In file_A (get_currency_file_paths ["dumps/A.2020-01-01.items.csv"; file_A]) /\
  ~ In "dumps/A.2020-01-01.items.csv"
       (get_currency_file_paths ["dumps/A.2020-01-01.items.csv"; file_A]).
Proof.
  pose proof (get_currency_file_paths_spec ["dumps/A.2020-01-01.items.csv"; file_A])
    as (Hin & _ & _).
  split.
  - apply Hin. split; [simpl; auto|]. apply contains_spec. reflexivity.
  - intros H. apply Hin in H as (_ & Hsub). apply contains_spec in Hsub.
    discriminate Hsub.
Defined.

Lemma extract_df_succeeds_iff_witness :
  exists r0 rest,
    sample_read_csv file_B = Some (r0 :: rest) /\ Raw.Pay r0 = base_currency.
Proof.
  destruct (proj1 (extract_df_succeeds_iff iso_date sample_read_csv file_B))
    as (r0 & rest & Hread & Hpay & _).
  - eexists. vm_compute. reflexivity.
  - exists r0, rest. auto.
Defined.

Lemma extract_df_exceptions_witness :
  sample_read_csv file_nobase = Some dump_nobase /\
  extract_df iso_date sample_read_csv file_nobase = Raise KeyError /\
  extract_df iso_date
             (fun _ => Some [chaos "A" "2020-01-01" "Orb1" 10%Q;
                             chaos "A" "someday" "Orb1" 12%Q]) file_A
  = Raise ValueError.
Proof.
  split; [reflexivity|split].
  - apply (extract_df_exceptions iso_date sample_read_csv file_nobase dump_nobase);
      [reflexivity|].
    split.
    + intros r Hr. injection Hr as <-. discriminate.
    + intros r Hin Hb. exfalso. simpl in Hin.
      repeat (destruct Hin as [<-|Hin]; [discriminate Hb|]). exact Hin.
  - apply (extract_df_exceptions
             iso_date
             (fun _ => Some [chaos "A" "2020-01-01" "Orb1" 10%Q;
                             chaos "A" "someday" "Orb1" 12%Q]) file_A
             [chaos "A" "2020-01-01" "Orb1" 10%Q; chaos "A" "someday" "Orb1" 12%Q]);
      [reflexivity|].
    exists (chaos "A" "someday" "Orb1" 12%Q).
    repeat split; simpl; auto.
Defined.

Lemma extract_df_translation_invariant_witness :
  extract_df (fun s => match iso_date s with
                       | Some t => Some (t + 719468)
                       | None => None
                       end) sample_read_csv file_B
  = extract_df iso_date sample_read_csv file_B.
Proof. exact (extract_df_translation_invariant iso_date sample_read_csv 719468 file_B). Defined.

Lemma group_df_axes_witness :
  let d := [(0%nat, Extracted.mk "B" 2 "Orb2" 3%Q);
            (1%nat, Extracted.mk "B" 0 "Orb1" 5%Q);
            (2%nat, Extracted.mk "B" 2 "Orb1" 7%Q)] in
  index (group_df d) = [0; 2] /\
  columns (group_df d) = [("Orb1", "B"); ("Orb2", "B")] /\
  StronglySorted Z.lt (index (group_df d)) /\
  StronglySorted key_lt (columns (group_df d)).
Proof.
  intros d. split; [reflexivity|]. split; [reflexivity|].
  destruct (group_df_axes d) as (_ & Hi & _ & Hc & _). split; assumption.
Defined.

Lemma group_df_cells_witness :
  let d := [(0%nat, Extracted.mk "B" 2 "Orb2" 3%Q);
            (1%nat, Extracted.mk "B" 0 "Orb1" 5%Q);
            (2%nat, Extracted.mk "B" 2 "Orb1" 7%Q)] in
  at_ (group_df d) 0 ("Orb2", "B") = Some NaN.
Proof.
  intros d. apply (proj1 (group_df_cells d)).
  split; [simpl; auto|]. split; [simpl; auto|].
  intros (r & Hr & Hk). simpl in Hr.
  destruct Hr as [<- | [<- | [<- | []]]]; discriminate Hk.
Defined.

Lemma get_data_succeeds_iff_witness :
  sample_catalog <> [] /\
  exists tables,
    Forall2 (fun r Tp =>
               league_table iso_date sample_read_csv (Catalog.File r)
                            ["Orb1"; "Orb2"] = Ok Tp)
            sample_catalog tables /\
    ForallOrdPairs disjoint_columns tables.
Proof.
  apply (get_data_succeeds_iff iso_date sample_read_csv ["Orb1"; "Orb2"]).
  eexists. vm_compute. reflexivity.
Defined.
